(** * FaceBoxes detector post-processing and super-resolution post-processing

    A shallow embedding of [detection_model_faceboxes.cpp] (anchor
    generation, score filtering, box decoding, detection assembly) and of
    [SuperResolutionModel::postprocess].

    Numeric conventions.  C++ [float] values are idealised as real numbers
    ([R]): rounding, infinities and NaN are outside the model.  [size_t]
    values are [nat] (unbounded; tensors cannot reach 2^64 elements), [int]
    values are [Z], with the implicit [size_t -> int] and [int -> size_t]
    conversions written out.  [std::vector] is [list]; an out-of-range
    [operator[]] is undefined behaviour in C++ and is read here through
    stdpp's total lookup [!!!] (a default value). *)

From Stdlib Require Import Reals Lra ZArith Lia.
From Stdlib Require Import Strings.String Strings.Ascii.
From stdpp Require Import base list gmap strings sorting.
From Equations Require Import Equations.

#[global] Instance R_inhabited : Inhabited R := populate 0%R.
#[global] Instance R_eq_dec : EqDecision R := Req_dec_T.

(** ** Loops over vectors *)

(** [v.push_back(x)] *)
Definition push_back {A} (v : list A) (x : A) : list A := v ++ [x].

(** [for (auto x : l) body] threading the mutated state [s]. *)
Definition for_each {A S} (l : list A) (body : A → S → S) (s : S) : S :=
  fold_left (λ acc x, body x acc) l s.

(** [for (size_t i = 0; i < n; ++i) body] threading the mutated state. *)
Definition for_range {S} (n : nat) (body : nat → S → S) (s : S) : S :=
  for_each (seq 0 n) body s.

(** ** Anchors *)

Module Anchor.
Local Open Scope R_scope.

(** [struct Anchor], four [float]s. *)
Record t := mk { left : R; top : R; right : R; bottom : R }.

#[global] Instance inhabited : Inhabited t := populate (mk 0 0 0 0).

(** The accessors of [Anchor].  They are declared with the struct in
    [utils/nms.hpp], which is not part of the sources, and are a parameter of
    everything that calls them. *)
Class Accessors := {
  getWidth : t → R;
  getHeight : t → R;
  getXCenter : t → R;
  getYCenter : t → R
}.

(** The conversions between the two representations of a box that the data
    model of the specification requires of the accessors. *)
Definition conversions `{Accessors} : Prop :=
  ∀ a, getWidth a = right a - left a
       ∧ getHeight a = bottom a - top a
       ∧ getXCenter a = left a + getWidth a / 2
       ∧ getYCenter a = top a + getHeight a / 2.

(** Modelled from the spec: the accessors as the data model gives them,
    "width = right − left, centerX = left + width/2". *)
Definition data_model : Accessors :=
  {| getWidth a := right a - left a;
     getHeight a := bottom a - top a;
     getXCenter a := left a + (right a - left a) / 2;
     getYCenter a := top a + (bottom a - top a) / 2 |}.

End Anchor.

(** ** Integer conversions *)

(** Implicit conversion of a [size_t] to [int] (two's complement, 32 bits). *)
Definition int_of_size_t (n : nat) : Z :=
  ((Z.of_nat n + 2 ^ 31) mod 2 ^ 32 - 2 ^ 31)%Z.

(** Implicit conversion of an [int] to [size_t] (64 bits), as performed on the
    divisor of [netInputHeight / s]. *)
Definition size_t_of_int (z : Z) : nat := Z.to_nat (z mod 2 ^ 64).

(** ** The model object *)

Record ModelFaceBoxes := mkModelFaceBoxes {
  (* constants of the class, declared in the header *)
  steps : list Z;
  minSizes : list (list Z);
  variance : list R;
  (* configuration *)
  confidence_threshold : R;
  iou_threshold : R;
  labels : list string;
  (* filled in by prepareInputsOutputs *)
  inputNames : list string;
  outputNames : list string;
  netInputWidth : nat;
  netInputHeight : nat;
  maxProposalsCount : nat;
  anchors : list Anchor.t
}.

Definition set_anchors (m : ModelFaceBoxes) (a : list Anchor.t) : ModelFaceBoxes :=
  mkModelFaceBoxes (steps m) (minSizes m) (variance m) (confidence_threshold m)
    (iou_threshold m) (labels m) (inputNames m) (outputNames m)
    (netInputWidth m) (netInputHeight m) (maxProposalsCount m) a.

(** ** Anchor generation *)

Section AnchorGeneration.
Local Open Scope R_scope.

Definition calculateAnchors (anchors : list Anchor.t) (vx vy : list R)
    (minSize step : Z) : list Anchor.t :=
  let skx := IZR minSize in
  let sky := IZR minSize in
  let dense_cx := map (λ x, x * IZR step) vx in
  let dense_cy := map (λ y, y * IZR step) vy in
  for_each dense_cy (λ cy anchors,
    for_each dense_cx (λ cx anchors,
      push_back anchors
        (Anchor.mk (cx - 0.5 * skx) (cy - 0.5 * sky) (cx + 0.5 * skx) (cy + 0.5 * sky)))
      anchors) anchors.

Definition calculateAnchorsZeroLevel (anchors : list Anchor.t) (fx fy : Z)
    (minSizes : list Z) (step : Z) : list Anchor.t :=
  for_each minSizes (λ s anchors,
    let '(vx, vy) :=
      if (s =? 32)%Z then
        ([IZR fx; IZR fx + 0.25; IZR fx + 0.5; IZR fx + 0.75],
         [IZR fy; IZR fy + 0.25; IZR fy + 0.5; IZR fy + 0.75])
      else if (s =? 64)%Z then
        ([IZR fx; IZR fx + 0.5], [IZR fy; IZR fy + 0.5])
      else
        ([IZR fx + 0.5], [IZR fy + 0.5]) in
    calculateAnchors anchors vx vy s step) anchors.

(** [anchors.reserve(maxProposalsCount)] sets a capacity and leaves the
    contents of the vector as they are. *)
Definition priorBoxes (m : ModelFaceBoxes) (featureMaps : list (nat * nat))
    : ModelFaceBoxes :=
  set_anchors m
    (for_range (length featureMaps) (λ k anchors,
       for_range (featureMaps !!! k).1 (λ i anchors,
         for_range (featureMaps !!! k).2 (λ j anchors,
           if (k =? 0)%nat then
             calculateAnchorsZeroLevel anchors (int_of_size_t j) (int_of_size_t i)
               (minSizes m !!! k) (steps m !!! k)
           else
             calculateAnchors anchors [INR j + 0.5] [INR i + 0.5]
               ((minSizes m !!! k) !!! 0%nat) (steps m !!! k))
           anchors) anchors) (anchors m)).

(** The feature-map sizes computed at the end of [prepareInputsOutputs]. *)
Definition featureMapsOf (m : ModelFaceBoxes) : list (nat * nat) :=
  for_each (steps m) (λ s fm,
    push_back fm ((netInputHeight m / size_t_of_int s)%nat,
                  (netInputWidth m / size_t_of_int s)%nat)) [].

End AnchorGeneration.

(** ** Tensors and inference results *)

(** An [ov::Tensor] holding [float]s: its shape and its flat buffer. *)
Record Tensor := mkTensor { get_shape : list nat; data : list R }.

(** [InferenceResult]: the output tensors by name ([std::map]) and the size of
    the original image kept in [InternalImageModelData] (two [int]s). *)
Record InferenceResult := mkInferenceResult {
  outputsData : gmap string Tensor;
  inputImgWidth : Z;
  inputImgHeight : Z
}.

Inductive exception :=
| logic_error (what : string)
| ov_exception (what : string).

(** A computation that returns or throws. *)
Inductive outcome (A : Type) :=
| Returns (a : A)
| Throws (e : exception).
Arguments Returns {A} a.
Arguments Throws {A} e.

#[global] Instance outcome_ret : MRet outcome := λ A a, Returns a.
#[global] Instance outcome_bind : MBind outcome := λ A B k c,
  match c with
  | Returns a => k a
  | Throws e => Throws e
  end.

(** [infResult.outputsData[name]] followed by the first access to the tensor:
    [std::map::operator[]] yields a default-constructed tensor for an absent
    name, and reading the shape of such a tensor throws. *)
Definition outputTensor (infResult : InferenceResult) (name : string)
    : outcome Tensor :=
  match outputsData infResult !! name with
  | Some t => Returns t
  | None => Throws (ov_exception "tensor is not initialized")
  end.

(** ** Score filter *)

Definition Rgtb (a b : R) : bool := if Rgt_dec a b then true else false.
Definition Rltb (a b : R) : bool := if Rlt_dec a b then true else false.

(** The loop [for (size_t i = ...; i < n; i = i + 2)] of [filterScores], with
    the two output vectors as its state. *)
Equations? filterScores_loop (scoresPtr : list R) (confidence_threshold : R)
    (n i : nat) (st : list nat * list R) : list nat * list R
    by wf (n - i)%nat lt :=
  filterScores_loop scoresPtr thr n i st with lt_dec i n => {
    | right _ := st
    | left _ :=
        filterScores_loop scoresPtr thr n (i + 2)
          (if Rgtb (scoresPtr !!! i) thr
           then (push_back st.1 (i / 2)%nat, push_back st.2 (scoresPtr !!! i))
           else st) }.
Proof. lia. Qed.

Definition filterScores (scoresTensor : Tensor) (confidence_threshold : R)
    : list nat * list R :=
  let shape := get_shape scoresTensor in
  let scoresPtr := data scoresTensor in
  filterScores_loop scoresPtr confidence_threshold
    (shape !!! 1%nat * shape !!! 2%nat)%nat 1%nat ([], []).

(** ** Box decoder *)

Section Decoder.
Local Open Scope R_scope.
Context {accessors : Anchor.Accessors}.

Definition decodeBox (boxesPtr : list R) (shape : list nat)
    (anchors : list Anchor.t) (variance : list R) (i : nat) : Anchor.t :=
  let objStart := (shape !!! 2%nat * i)%nat in
  let dx := boxesPtr !!! objStart in
  let dy := boxesPtr !!! (objStart + 1)%nat in
  let dw := boxesPtr !!! (objStart + 2)%nat in
  let dh := boxesPtr !!! (objStart + 3)%nat in
  let predCtrX := dx * variance !!! 0%nat * Anchor.getWidth (anchors !!! i)
                  + Anchor.getXCenter (anchors !!! i) in
  let predCtrY := dy * variance !!! 0%nat * Anchor.getHeight (anchors !!! i)
                  + Anchor.getYCenter (anchors !!! i) in
  let predW := exp (dw * variance !!! 1%nat) * Anchor.getWidth (anchors !!! i) in
  let predH := exp (dh * variance !!! 1%nat) * Anchor.getHeight (anchors !!! i) in
  Anchor.mk (predCtrX - 0.5 * predW) (predCtrY - 0.5 * predH)
           (predCtrX + 0.5 * predW) (predCtrY + 0.5 * predH).

Definition filterBoxes (boxesTensor : Tensor) (anchors : list Anchor.t)
    (validIndices : list nat) (variance : list R) : list Anchor.t :=
  let shape := get_shape boxesTensor in
  let boxesPtr := data boxesTensor in
  for_each validIndices (λ i boxes,
    push_back boxes (decodeBox boxesPtr shape anchors variance i)) [].

End Decoder.

(** ** Sorting *)

(** [std::sort] with a comparison: the result is the sorted arrangement of the
    elements; an insertion sort computes it. *)
Fixpoint insert_sorted {A} (before : A → A → bool) (x : A) (l : list A) : list A :=
  match l with
  | [] => [x]
  | y :: l' => if before y x then y :: insert_sorted before x l' else x :: y :: l'
  end.

Definition sort {A} (before : A → A → bool) (l : list A) : list A :=
  foldr (insert_sorted before) [] l.

(** ** Non-maximum suppression *)

Module Nms.
Local Open Scope R_scope.

Definition area (a : Anchor.t) : R :=
  (Anchor.right a - Anchor.left a) * (Anchor.bottom a - Anchor.top a).

Definition intersection (a b : Anchor.t) : R :=
  Rmax 0 (Rmin (Anchor.right a) (Anchor.right b) - Rmax (Anchor.left a) (Anchor.left b))
  * Rmax 0 (Rmin (Anchor.bottom a) (Anchor.bottom b) - Rmax (Anchor.top a) (Anchor.top b)).

(** Modelled from the spec: "IoU: overlap ratio between two boxes =
    area(intersection)/area(union)"; [utils/nms.hpp] is not part of the
    sources. *)
Definition iou (a b : Anchor.t) : R :=
  intersection a b / (area a + area b - intersection a b).

(** Candidate [i] goes before candidate [j]: higher score first, and on equal
    scores the lower original index first. *)
Definition before (scores : list R) (i j : nat) : bool :=
  Rgtb (scores !!! i) (scores !!! j)
  || (bool_decide (scores !!! i = scores !!! j) && (i <=? j)%nat).

Definition overlaps (boxes : list Anchor.t) (thresh : R) (i j : nat) : bool :=
  Rgtb (iou (boxes !!! i) (boxes !!! j)) thresh.

(** Modelled from the spec: "repeatedly select the highest-remaining-score box,
    keep it, and remove every remaining box whose Intersection-over-Union with
    the kept box exceeds iouThreshold", on the candidates in sorted order. *)
Equations? greedy (boxes : list Anchor.t) (thresh : R) (order : list nat)
    : list nat by wf (length order) lt :=
  greedy boxes thresh [] := [];
  greedy boxes thresh (i :: rest) :=
    i :: greedy boxes thresh
           (filter (λ j, overlaps boxes thresh i j = false) rest).
Proof.
  pose proof (length_filter (λ j, overlaps boxes thresh i j = false) rest).
  simpl. lia.
Qed.

(** Modelled from the spec: [nms(boxes, scores, iouThreshold) -> kept indices],
    "sort candidate indices by descending score", ties "stable by original
    index (lower index wins ties during sort)", then the greedy selection;
    [utils/nms.hpp] is not part of the sources. *)
Definition nms (boxes : list Anchor.t) (scores : list R) (thresh : R) : list nat :=
  greedy boxes thresh (sort (before scores) (seq 0 (length scores))).

End Nms.

(** ** Detection assembly *)

Section Assembly.
Local Open Scope R_scope.
Context {accessors : Anchor.Accessors}.

(** Modelled from the spec: [clamp] comes from [utils/common.hpp], which is not
    part of the sources; a value is "clamped to [0, originalImageWidth]". *)
Definition clamp (value low high : R) : R :=
  if Rltb value low then low else if Rgtb value high then high else value.

Record DetectedObject := mkDetectedObject {
  confidence : R;
  x : R;
  y : R;
  width : R;
  height : R;
  labelID : Z;
  label : string
}.

(** [DetectionResult]: the list of objects (frame id and metadata are copied
    from the inference result and carry no computation). *)
Record DetectionResult := mkDetectionResult { objects : list DetectedObject }.

(** The body of the loop [for (auto i : keep)] of [postprocess]. *)
Definition describe (m : ModelFaceBoxes) (boxes : list Anchor.t) (scores : list R)
    (imgWidth imgHeight : Z) (scaleX scaleY : R) (i : nat) : DetectedObject :=
  {| confidence := scores !!! i;
     x := clamp (Anchor.left (boxes !!! i) / scaleX) 0 (IZR imgWidth);
     y := clamp (Anchor.top (boxes !!! i) / scaleY) 0 (IZR imgHeight);
     width := clamp (Anchor.getWidth (boxes !!! i) / scaleX) 0 (IZR imgWidth);
     height := clamp (Anchor.getHeight (boxes !!! i) / scaleY) 0 (IZR imgHeight);
     labelID := 0;
     label := labels m !!! 0%nat |}.

Definition postprocess (m : ModelFaceBoxes) (infResult : InferenceResult)
    : outcome DetectionResult :=
  (* Filter scores and get valid indices for bounding boxes *)
  scoresTensor ← outputTensor infResult (outputNames m !!! 1%nat);
  let scores := filterScores scoresTensor (confidence_threshold m) in
  (* Filter bounding boxes on indices *)
  boxesTensor ← outputTensor infResult (outputNames m !!! 0%nat);
  let boxes := filterBoxes boxesTensor (anchors m) scores.1 (variance m) in
  (* Apply Non-maximum Suppression *)
  let keep := Nms.nms boxes scores.2 (iou_threshold m) in
  (* Create detection result objects *)
  let imgWidth := inputImgWidth infResult in
  let imgHeight := inputImgHeight infResult in
  let scaleX := INR (netInputWidth m) / IZR imgWidth in
  let scaleY := INR (netInputHeight m) / IZR imgHeight in
  mret (mkDetectionResult
    (for_each keep (λ i objects,
       push_back objects
         (describe m boxes scores.2 imgWidth imgHeight scaleX scaleY i)) [])).

(** The detections computed from the two tensors: [postprocess] once both are
    found. *)
Definition detections (m : ModelFaceBoxes) (scoresTensor boxesTensor : Tensor)
    (imgWidth imgHeight : Z) : DetectionResult :=
  let scores := filterScores scoresTensor (confidence_threshold m) in
  let boxes := filterBoxes boxesTensor (anchors m) scores.1 (variance m) in
  let keep := Nms.nms boxes scores.2 (iou_threshold m) in
  mkDetectionResult
    (map (describe m boxes scores.2 imgWidth imgHeight
            (INR (netInputWidth m) / IZR imgWidth)
            (INR (netInputHeight m) / IZR imgHeight)) keep).

End Assembly.

(** ** Model setup *)

(** An input or output port of an [ov::Model]: its name, its static shape and,
    for an input, the layout that [getInputLayout] finds for it. *)
Record Port := mkPort {
  get_any_name : string;
  port_shape : list nat;
  getInputLayout : string
}.

#[global] Instance Port_inhabited : Inhabited Port := populate (mkPort "" [] "").

Record OvModel := mkOvModel { inputs : list Port; outputs : list Port }.

(** [ov::Layout]: the position of a named dimension; a layout without that
    dimension makes OpenVINO throw. *)
Definition get_index_by_name (layout dim : string) : outcome nat :=
  match String.index 0 dim layout with
  | Some i => Returns i
  | None => Throws (ov_exception "layout has no such dimension")
  end.

Definition channels_idx (layout : string) : outcome nat := get_index_by_name layout "C".
Definition height_idx (layout : string) : outcome nat := get_index_by_name layout "H".
Definition width_idx (layout : string) : outcome nat := get_index_by_name layout "W".

(** A model object before [prepareInputsOutputs] has run. *)
Definition newModelFaceBoxes (steps : list Z) (minSizes : list (list Z))
    (variance : list R) (confidence_threshold iou_threshold : R)
    (labels : list string) : ModelFaceBoxes :=
  mkModelFaceBoxes steps minSizes variance confidence_threshold iou_threshold
    labels [] [] 0 0 0 [].

(** The pre-processing steps recorded in [ov::preprocess::PrePostProcessor]
    configure the inference engine and leave the members of the model object
    untouched; they are not represented. *)
Definition prepareInputsOutputs (m : ModelFaceBoxes) (model : OvModel)
    : outcome ModelFaceBoxes :=
  (* Prepare input *)
  if negb (length (inputs model) =? 1)%nat then
    Throws (logic_error "FaceBoxes model wrapper expects models that have only 1 input")
  else
  let input := inputs model !!! 0%nat in
  let inputShape := port_shape input in
  let inputLayout := getInputLayout input in
  c ← channels_idx inputLayout;
  if negb (inputShape !!! c =? 3)%nat then
    Throws (logic_error "Expected 3-channel input")
  else
  (* Reading image input parameters *)
  let inputNames' := push_back (inputNames m) (get_any_name input) in
  w ← width_idx inputLayout;
  h ← height_idx inputLayout;
  let netInputWidth' := inputShape !!! w in
  let netInputHeight' := inputShape !!! h in
  (* Prepare output *)
  if negb (length (outputs model) =? 2)%nat then
    Throws (logic_error "FaceBoxes model wrapper expects models that have 2 outputs")
  else
  let outputLayout := "CHW" in
  hh ← height_idx outputLayout;
  let maxProposalsCount' := port_shape (outputs model !!! 0%nat) !!! hh in
  let outputNames' :=
    for_each (outputs model) (λ output outputNames,
      push_back outputNames (get_any_name output)) (outputNames m) in
  let outputNames' := sort String.ltb outputNames' in
  (* Calculating anchors *)
  let m' := mkModelFaceBoxes (steps m) (minSizes m) (variance m)
              (confidence_threshold m) (iou_threshold m) (labels m)
              inputNames' outputNames' netInputWidth' netInputHeight'
              maxProposalsCount' (anchors m) in
  mret (priorBoxes m' (featureMapsOf m')).

(** ** Super-resolution post-processing *)

Module SuperResolutionModel.
Local Open Scope R_scope.

(** [cv::Mat(outHeight, outWidth, CV_32FC1, &outputData[offset])]: the
    [numOfPixels] floats of the buffer from [offset] on. *)
Definition Mat (outputData : list R) (offset numOfPixels : nat) : list R :=
  take numOfPixels (drop offset outputData).

(** [cv::threshold(src, dst, thresh, maxval, cv::THRESH_BINARY)]. *)
Definition threshold_binary (src : list R) (thresh maxval : R) : list R :=
  map (λ v, if Rgtb v thresh then maxval else 0) src.

(** [cvRound]: the nearest integer, halves to the even one. *)
Definition cvRound (v : R) : Z :=
  let f := Int_part v in
  let d := v - IZR f in
  if Rltb d 0.5 then f
  else if Rgtb d 0.5 then (f + 1)%Z
  else if Z.even f then f else (f + 1)%Z.

(** [cv::saturate_cast<uchar>] of an integer. *)
Definition saturate_cast_uchar (z : Z) : Z := Z.max 0 (Z.min 255 z).

(** [img.convertTo(img, CV_8UC1, alpha)]. *)
Definition convertTo_8UC1 (img : list R) (alpha : R) : list Z :=
  map (λ v, saturate_cast_uchar (cvRound (v * alpha))) img.

(** [ImageResult]: the image as [cv::merge] builds it, one 8-bit plane per
    channel. *)
Record ImageResult := mkImageResult { resultImage : list (list Z) }.

(** [outTensor] is [infResult.getFirstOutputTensor()]; the dimensions of its
    shape are taken as they are (the casts through [int] change nothing for a
    shape that fits in memory). *)
Definition postprocess (outTensor : Tensor) : ImageResult :=
  let outputData := data outTensor in
  let outShape := get_shape outTensor in
  let outChannels := outShape !!! 1%nat in
  let outHeight := outShape !!! 2%nat in
  let outWidth := outShape !!! 3%nat in
  let numOfPixels := (outWidth * outHeight)%nat in
  let imgPlanes :=
    if (outChannels =? 3)%nat then
      [Mat outputData 0 numOfPixels;
       Mat outputData numOfPixels numOfPixels;
       Mat outputData (numOfPixels * 2) numOfPixels]
    else
      (* Post-processing for text-image-super-resolution models *)
      [threshold_binary (Mat outputData 0 numOfPixels) 0.5 1.0] in
  let imgPlanes := map (λ img, convertTo_8UC1 img 255) imgPlanes in
  mkImageResult imgPlanes.

End SuperResolutionModel.

(** ** The anchor list as the specification describes it *)

Module AnchorSpec.
Local Open Scope R_scope.

(** Sub-offsets of the anchors of a level-0 cell for min-size [s]. *)
Definition sub_offsets (s : Z) : list R :=
  if (s =? 32)%Z then [0; 0.25; 0.5; 0.75]
  else if (s =? 64)%Z then [0; 0.5]
  else [0.5].

(** The box centered at [(cx, cy)] with width = height = [s]. *)
Definition centered (cx cy s : R) : Anchor.t :=
  Anchor.mk (cx - s / 2) (cy - s / 2) (cx + s / 2) (cy + s / 2).

(** The anchors of the cell at ([col], [row]) of level [k]. *)
Definition cell (k : nat) (sizes : list Z) (step : Z) (row col : nat)
    : list Anchor.t :=
  match k with
  | O =>
      s ← sizes; oy ← sub_offsets s; ox ← sub_offsets s;
      [centered ((INR col + ox) * IZR step) ((INR row + oy) * IZR step) (IZR s)]
  | S _ =>
      [centered ((INR col + 0.5) * IZR step) ((INR row + 0.5) * IZR step)
                (IZR (sizes !!! 0%nat))]
  end.

(** Level [k]: rows outside, columns inside. *)
Definition level (inputWidth inputHeight : nat) (steps : list Z)
    (minSizes : list (list Z)) (k : nat) : list Anchor.t :=
  let step := steps !!! k in
  row ← seq 0 (inputHeight / Z.to_nat step)%nat;
  col ← seq 0 (inputWidth / Z.to_nat step)%nat;
  cell k (minSizes !!! k) step row col.

(** [generate(inputWidth, inputHeight, steps, minSizes)]: levels in ascending
    order. *)
Definition generate (inputWidth inputHeight : nat) (steps : list Z)
    (minSizes : list (list Z)) : list Anchor.t :=
  k ← seq 0 (length steps); level inputWidth inputHeight steps minSizes k.

(** Number of anchors per level-0 cell for min-size [s]. *)
Definition per_cell (s : Z) : nat :=
  if (s =? 32)%Z then 16 else if (s =? 64)%Z then 4 else 1.

(** A configuration on which no vector is read out of range and no integer
    conversion changes a value. *)
Definition config_ok (m : ModelFaceBoxes) : bool :=
  forallb (λ s, (0 <? s)%Z && (s <? 2 ^ 31)%Z) (steps m)
  && (length (steps m) <=? length (minSizes m))%nat
  && forallb (λ sizes, (0 <? length sizes)%nat) (tail (minSizes m))
  && (Z.of_nat (netInputWidth m) <? 2 ^ 31)%Z
  && (Z.of_nat (netInputHeight m) <? 2 ^ 31)%Z.

End AnchorSpec.

(** ** The scores tensor as the specification describes it *)

(** Number of (background, foreground) pairs in the buffer. *)
Definition candidates (scoresTensor : Tensor) : nat :=
  (get_shape scoresTensor !!! 1%nat * get_shape scoresTensor !!! 2%nat) / 2.

(** Foreground score of candidate [k]: the second float of pair [k]. *)
Definition foreground (scoresTensor : Tensor) (k : nat) : R :=
  data scoresTensor !!! (2 * k + 1)%nat.

(** ** Sample data *)

Module Sample.
Local Open Scope R_scope.

(** The FaceBoxes configuration: three levels, dense anchors on level 0. *)
Definition faceboxes : ModelFaceBoxes :=
  newModelFaceBoxes [32; 64; 128]%Z [[32; 64; 128]; [256]; [512]]%Z
    [0.1; 0.2] 0.5 0.3 ["Face"].

(** A network with a 128x128 input whose outputs declare 100 proposals. *)
Definition network : OvModel :=
  mkOvModel [mkPort "input" [1; 3; 128; 128]%nat "NCHW"]
            [mkPort "scores" [1; 100; 2]%nat ""; mkPort "boxes" [1; 100; 4]%nat ""].

(** The FaceBoxes model object once set up on a 128x128 network input. *)
Definition prepared : ModelFaceBoxes :=
  mkModelFaceBoxes [32; 64; 128]%Z [[32; 64; 128]; [256]; [512]]%Z
    [0.1; 0.2] 0.5 0.3 ["Face"] ["input"] ["boxes"; "scores"] 128 128 341 [].

(** Two candidates: foreground scores 0.1 and 0.8. *)
Definition scores : Tensor := mkTensor [1; 2; 2]%nat [0.9; 0.1; 0.2; 0.8].

(** Two candidates, neither above one half. *)
Definition quiet_scores : Tensor := mkTensor [1; 2; 2]%nat [0.9; 0.1; 0.8; 0.2].

(** All-zero deltas for two candidates. *)
Definition zero_deltas : Tensor := mkTensor [1; 2; 4]%nat [0; 0; 0; 0; 0; 0; 0; 0].

Definition quiet_result : InferenceResult :=
  mkInferenceResult (<["scores" := quiet_scores]> (<["boxes" := zero_deltas]> ∅))
    100 100.

(** Twice the same box, with scores 0.9 and 0.8. *)
Definition twins : list Anchor.t := [Anchor.mk 0 0 10 10; Anchor.mk 0 0 10 10].

(** A one-channel output of two pixels. *)
Definition text_image : Tensor := mkTensor [1; 1; 1; 2]%nat [0.3; 0.7].

End Sample.

(** ** Super-resolution model setup *)

(** The product of two [size_t] values: 64 bits, wrapping around. *)
Definition size_t_mul (a b : nat) : nat :=
  Z.to_nat ((Z.of_nat a * Z.of_nat b) mod 2 ^ 64).

Module SuperResolution.

(** The members of [SuperResolutionModel] that setup reads and writes. *)
Record t := mk {
  inputNames : list string;
  outputNames : list string;
  netInputWidth : nat;
  netInputHeight : nat
}.

(** The constructor: the network input size is taken from [inputImgSize]
    (two [int]s stored in [size_t] members). *)
Definition new (inputImgSize_width inputImgSize_height : Z) : t :=
  mk [] [] (size_t_of_int inputImgSize_width) (size_t_of_int inputImgSize_height).

(** [model->inputs()] and [model->outputs()]. *)
Definition model_inputs (model : OvModel) : list Port := inputs model.
Definition model_outputs (model : OvModel) : list Port := outputs model.

Definition batch_idx (layout : string) : outcome nat := get_index_by_name layout "N".

(** [a.swap(b)] on the elements [i] and [j] of a vector. *)
Definition swap_at {A} `{Inhabited A} (i j : nat) (v : list A) : list A :=
  <[i := v !!! j]> (<[j := v !!! i]> v).

(** [changeInputSize]: the shapes handed to [model->reshape], by input name.
    [layout] is [ov::layout::get_layout(model->inputs().front())] and [inputs]
    is [model->inputs()]; [coeff * netInputHeight] is a product in [size_t],
    with [coeff] converted from [int]. *)
Definition changeInputSize (m : t) (layout : string) (inputs : list Port)
    (coeff : Z) : outcome (gmap string (list nat)) :=
  let shapes : gmap string (list nat) := ∅ in
  batchId ← batch_idx layout;
  heightId ← height_idx layout;
  widthId ← width_idx layout;
  let lrInputTensorName := get_any_name (inputs !!! 0%nat) in
  let lrShape := port_shape (inputs !!! 0%nat) in
  let '(shapes, lrInputTensorName, lrShape) :=
    if (length inputs =? 2)%nat then
      let bicInputTensorName := get_any_name (inputs !!! 1%nat) in
      let bicShape := port_shape (inputs !!! 1%nat) in
      let '(bicShape, lrShape, bicInputTensorName, lrInputTensorName) :=
        if (bicShape !!! heightId <=? lrShape !!! heightId)%nat
           && (bicShape !!! widthId <=? lrShape !!! widthId)%nat
        then (lrShape, bicShape, lrInputTensorName, bicInputTensorName)
        else (bicShape, lrShape, bicInputTensorName, lrInputTensorName) in
      let bicShape := <[batchId := 1%nat]> bicShape in
      let bicShape :=
        <[heightId := size_t_mul (size_t_of_int coeff) (netInputHeight m)]> bicShape in
      let bicShape :=
        <[widthId := size_t_mul (size_t_of_int coeff) (netInputWidth m)]> bicShape in
      (<[bicInputTensorName := bicShape]> shapes, lrInputTensorName, lrShape)
    else (shapes, lrInputTensorName, lrShape) in
  let lrShape := <[batchId := 1%nat]> lrShape in
  let lrShape := <[heightId := netInputHeight m]> lrShape in
  let lrShape := <[widthId := netInputWidth m]> lrShape in
  mret (<[lrInputTensorName := lrShape]> shapes).

(** The second input of a two-input topology: its name is recorded, its rank
    checked, and the two inputs are put in the order (smaller, larger). *)
Definition secondInput (inputs : list Port) (heightId widthId : nat)
    (inputNames : list string) (lrShape : list nat)
    : outcome (list string * list nat) :=
  let bicInputTensorName := get_any_name (inputs !!! 1%nat) in
  let inputNames := push_back inputNames bicInputTensorName in
  let bicShape := port_shape (inputs !!! 1%nat) in
  if negb (length bicShape =? 4)%nat then
    Throws (logic_error "Number of dimensions for both inputs must be 4")
  else if (bicShape !!! widthId <=? lrShape !!! widthId)%nat
          && (bicShape !!! heightId <=? lrShape !!! heightId)%nat then
    mret (swap_at 0 1 inputNames, bicShape)
  else if negb ((lrShape !!! widthId <=? bicShape !!! widthId)%nat
                && (lrShape !!! heightId <=? bicShape !!! heightId)%nat) then
    Throws (logic_error
      "Each spatial dimension of one input must surpass or be equal to a spatialdimension of another input")
  else mret (inputNames, lrShape).

(** [prepareInputsOutputs]: the members after setup and the shapes requested
    from the engine.  [build] is [ppp.build()] and [get_layout] is
    [ov::layout::get_layout]; both belong to the inference engine. *)
Definition prepareInputsOutputs (build : OvModel → OvModel)
    (get_layout : Port → string) (m : t) (model : OvModel)
    : outcome (t * gmap string (list nat)) :=
  (* Prepare input *)
  let inputs := model_inputs model in
  if negb (length inputs =? 1)%nat && negb (length inputs =? 2)%nat then
    Throws (logic_error
      "Super resolution model wrapper supports topologies with 1 or 2 inputs only")
  else
  let lrInputTensorName := get_any_name (inputs !!! 0%nat) in
  let inputNames' := push_back (inputNames m) lrInputTensorName in
  let lrShape := port_shape (inputs !!! 0%nat) in
  if negb (length lrShape =? 4)%nat then
    Throws (logic_error "Number of dimensions for an input must be 4")
  else
  (* in case of 2 inputs they have the same layouts *)
  let inputLayout := getInputLayout (inputs !!! 0%nat) in
  channelsId ← channels_idx inputLayout;
  heightId ← height_idx inputLayout;
  widthId ← width_idx inputLayout;
  if negb (lrShape !!! channelsId =? 1)%nat && negb (lrShape !!! channelsId =? 3)%nat then
    Throws (logic_error "Input layer is expected to have 1 or 3 channels")
  else
  '(inputNames', lrShape) ←
    (if (length inputs =? 2)%nat
     then secondInput inputs heightId widthId inputNames' lrShape
     else mret (inputNames', lrShape));
  (* Prepare output *)
  let outputs := model_outputs model in
  if negb (length outputs =? 1)%nat then
    Throws (logic_error
      "Super resolution model wrapper supports topologies with only 1 output")
  else
  let outputNames' := push_back (outputNames m) (get_any_name (outputs !!! 0%nat)) in
  let m' := mk inputNames' outputNames' (netInputWidth m) (netInputHeight m) in
  let model := build model in
  let outShape := port_shape (model_outputs model !!! 0%nat) in
  let outputLayout := "NCHW" in
  w ← width_idx outputLayout;
  let outWidth := outShape !!! w in
  let inWidth := lrShape !!! w in
  shapes ← changeInputSize m' (get_layout (model_inputs model !!! 0%nat))
              (model_inputs model) (int_of_size_t (outWidth / inWidth));
  mret (m', shapes).

End SuperResolution.

(** ** More sample data *)

Module SampleSR.
Local Open Scope R_scope.

(** The first anchor of the FaceBoxes grid: cell (0, 0), min-size 32. *)
Definition corner_anchor : Anchor.t := Anchor.mk (-16) (-16) 16 16.

(** The scores of [Sample.scores] with other background values. *)
Definition other_background : Tensor := mkTensor [1; 2; 2]%nat [0.5; 0.1; 0.6; 0.8].

(** A 3-channel image of 1x2 pixels stored as floats. *)
Definition byte_image : Tensor :=
  mkTensor [1; 3; 1; 2]%nat (map (λ p, IZR p / 255) [0; 128; 255; 7; 8; 9]%Z).

Definition low : Port := mkPort "lr" [1; 3; 100; 200]%nat "NCHW".
Definition high : Port := mkPort "bic" [1; 3; 400; 800]%nat "NCHW".
Definition crossed : Port := mkPort "odd" [1; 3; 50; 900]%nat "NCHW".
Definition upscaled : Port := mkPort "sr" [1; 3; 400; 800]%nat "NCHW".

(** A super-resolution object for 200x100 inputs. *)
Definition wrapper : SuperResolution.t := SuperResolution.new 200 100.

(** One-input and two-input topologies; in the second the larger input is
    declared first. *)
Definition single : OvModel := mkOvModel [low] [upscaled].
Definition double : OvModel := mkOvModel [high; low] [upscaled].
Definition mismatched : OvModel := mkOvModel [low; crossed] [upscaled].

(** An engine whose [build] leaves the ports of the model as they are. *)
Definition build (model : OvModel) : OvModel := model.

(** A network without any input. *)
Definition no_input : OvModel := mkOvModel [] [].

End SampleSR.

(** ** A sample with one detection *)

Module SampleDetection.
Local Open Scope R_scope.

(** A FaceBoxes object for a 100x100 network input with two anchors, the
    first of which reaches beyond the input on the left and on the right. *)
Definition detector : ModelFaceBoxes :=
  mkModelFaceBoxes [32; 64; 128]%Z [[32; 64; 128]; [256]; [512]]%Z
    [0.1; 0.2] 0.5 0.3 ["Face"] ["input"] ["boxes"; "scores"] 100 100 2
    [Anchor.mk (-20) 0 150 10; Anchor.mk 0 0 10 10].

(** Two candidates: foreground scores 0.9 and 0.2. *)
Definition scores : Tensor := mkTensor [1; 2; 2]%nat [0.1; 0.9; 0.8; 0.2].

(** An inference result on a 100x100 image, with all-zero deltas. *)
Definition result : InferenceResult :=
  mkInferenceResult (<["scores" := scores]> (<["boxes" := Sample.zero_deltas]> ∅))
    100 100.

(** The detection expected from it: the first anchor, clamped to the image. *)
Definition face : DetectedObject := mkDetectedObject 0.9 0 0 100 10 0 "Face".

End SampleDetection.

(** * Properties *)

(** ** Loops that only append *)

Lemma for_each_push_back {A B} (g : A → list B) (body : A → list B → list B)
    (l : list A) (s : list B) :
  (∀ a acc, a ∈ l → body a acc = acc ++ g a) →
  for_each l body s = s ++ (l ≫= g).
Proof.
  unfold for_each. revert s.
  induction l as [|a l IH]; intros s Hbody; simpl.
  - by rewrite app_nil_r.
  - rewrite IH, Hbody, <- app_assoc by (try intros; try apply Hbody; set_solver).
    done.
Qed.

Lemma for_range_push_back {B} (g : nat → list B) (body : nat → list B → list B)
    (n : nat) (s : list B) :
  (∀ i acc, (i < n)%nat → body i acc = acc ++ g i) →
  for_range n body s = s ++ (seq 0 n ≫= g).
Proof.
  intros Hbody. apply for_each_push_back.
  intros i acc Hi. apply Hbody. apply elem_of_seq in Hi. lia.
Qed.

Lemma bind_ext_elem_of {A B} (f g : A → list B) (l : list A) :
  (∀ a, a ∈ l → f a = g a) → l ≫= f = l ≫= g.
Proof.
  induction l as [|a l IH]; intros H; [done|].
  rewrite !bind_cons, H, IH by set_solver. done.
Qed.

Lemma bind_map {A B C} (f : A → B) (g : B → list C) (l : list A) :
  map f l ≫= g = l ≫= (λ a, g (f a)).
Proof.
  induction l as [|a l IH]; [done|].
  change (map f (a :: l)) with (f a :: map f l). by rewrite !bind_cons, IH.
Qed.

Lemma length_bind_const {A B} (f : A → list B) (l : list A) (n : nat) :
  (∀ a, length (f a) = n) → length (l ≫= f) = (length l * n)%nat.
Proof.
  intros H. induction l as [|a l IH]; [done|].
  rewrite bind_cons, length_app, H, IH. simpl. lia.
Qed.

(** ** Anchor generation *)

Section AnchorGenerationFacts.
Local Open Scope R_scope.
Import AnchorSpec.

Lemma centered_eq (cx cy s : R) :
  Anchor.mk (cx - 0.5 * s) (cy - 0.5 * s) (cx + 0.5 * s) (cy + 0.5 * s)
  = centered cx cy s.
Proof. unfold centered. f_equal; lra. Qed.

Lemma calculateAnchors_app (acc : list Anchor.t) (vx vy : list R) (s step : Z) :
  calculateAnchors acc vx vy s step
  = acc ++ (y ← vy; x ← vx; [centered (x * IZR step) (y * IZR step) (IZR s)]).
Proof.
  unfold calculateAnchors.
  rewrite (for_each_push_back
             (λ cy, x ← vx; [centered (x * IZR step) cy (IZR s)])).
  - by rewrite bind_map.
  - intros cy acc' _.
    rewrite (for_each_push_back (λ cx, [centered cx cy (IZR s)])).
    + by rewrite bind_map.
    + intros cx acc'' _. unfold push_back. by rewrite centered_eq.
Qed.

Lemma sub_offsets_shift (f : Z) (s : Z) :
  (if (s =? 32)%Z then [IZR f; IZR f + 0.25; IZR f + 0.5; IZR f + 0.75]
   else if (s =? 64)%Z then [IZR f; IZR f + 0.5] else [IZR f + 0.5])
  = map (λ o, IZR f + o) (sub_offsets s).
Proof.
  unfold sub_offsets.
  destruct (s =? 32)%Z; [|destruct (s =? 64)%Z];
    cbn [map]; repeat f_equal; lra.
Qed.

Lemma calculateAnchorsZeroLevel_app (acc : list Anchor.t) (col row : nat)
    (sizes : list Z) (step : Z) :
  calculateAnchorsZeroLevel acc (Z.of_nat col) (Z.of_nat row) sizes step
  = acc ++ cell 0 sizes step row col.
Proof.
  unfold calculateAnchorsZeroLevel, cell.
  apply for_each_push_back. intros s acc' _.
  pose proof (sub_offsets_shift (Z.of_nat col) s) as Hx.
  pose proof (sub_offsets_shift (Z.of_nat row) s) as Hy.
  destruct (s =? 32)%Z; [|destruct (s =? 64)%Z];
    rewrite calculateAnchors_app, Hx, Hy, bind_map; f_equal;
    apply bind_ext_elem_of; intros oy _; rewrite bind_map;
    apply bind_ext_elem_of; intros ox _; by rewrite <- !INR_IZR_INZ.
Qed.

Lemma int_of_size_t_small (n : nat) :
  (Z.of_nat n < 2 ^ 31)%Z → int_of_size_t n = Z.of_nat n.
Proof.
  intros H. unfold int_of_size_t.
  rewrite Z.mod_small by lia. lia.
Qed.

Lemma size_t_of_int_small (z : Z) :
  (0 < z < 2 ^ 31)%Z → size_t_of_int z = Z.to_nat z.
Proof.
  intros H. unfold size_t_of_int. rewrite Z.mod_small by lia. done.
Qed.

Lemma featureMapsOf_map (m : ModelFaceBoxes) :
  featureMapsOf m
  = map (λ s, ((netInputHeight m / size_t_of_int s)%nat,
               (netInputWidth m / size_t_of_int s)%nat)) (steps m).
Proof.
  unfold featureMapsOf.
  rewrite (for_each_push_back
             (λ s, [((netInputHeight m / size_t_of_int s)%nat,
                     (netInputWidth m / size_t_of_int s)%nat)])) by done.
  simpl. induction (steps m) as [|s l IH]; [done|].
  rewrite bind_cons. simpl. by rewrite IH.
Qed.

End AnchorGenerationFacts.

Section AnchorGenerationClaim.
Local Open Scope R_scope.
Import AnchorSpec.
Context {accessors : Anchor.Accessors}.

Lemma config_ok_step (m : ModelFaceBoxes) (k : nat) :
  config_ok m = true → (k < length (steps m))%nat →
  (0 < steps m !!! k < 2 ^ 31)%Z.
Proof.
  unfold config_ok. rewrite !andb_true_iff, forallb_forall.
  intros [[[[Hs _] _] _] _] Hk.
  destruct (lookup_lt_is_Some_2 (steps m) k Hk) as [s Hlk].
  rewrite (list_lookup_total_correct _ _ _ Hlk).
  specialize (Hs s). rewrite andb_true_iff in Hs.
  destruct Hs as [H1 H2].
  - apply list_elem_of_In. by eapply list_elem_of_lookup_2.
  - lia.
Qed.

Lemma priorBoxes_level (m : ModelFaceBoxes) (k : nat) (acc : list Anchor.t) :
  config_ok m = true → (k < length (steps m))%nat →
  for_range (featureMapsOf m !!! k).1 (λ i anchors,
    for_range (featureMapsOf m !!! k).2 (λ j anchors,
      if (k =? 0)%nat then
        calculateAnchorsZeroLevel anchors (int_of_size_t j) (int_of_size_t i)
          (minSizes m !!! k) (steps m !!! k)
      else
        calculateAnchors anchors [INR j + 0.5] [INR i + 0.5]
          ((minSizes m !!! k) !!! 0%nat) (steps m !!! k))
      anchors) acc
  = acc ++ level (netInputWidth m) (netInputHeight m) (steps m) (minSizes m) k.
Proof.
  intros Hok Hk.
  pose proof (config_ok_step m k Hok Hk) as Hstep.
  assert (Hw : (Z.of_nat (netInputWidth m) < 2 ^ 31)%Z
               ∧ (Z.of_nat (netInputHeight m) < 2 ^ 31)%Z).
  { unfold config_ok in Hok. rewrite !andb_true_iff in Hok. lia. }
  rewrite featureMapsOf_map.
  change (map ?f ?l) with (f <$> l).
  rewrite (list_lookup_total_fmap _ (steps m) k) by done.
  rewrite size_t_of_int_small by done. cbn [fst snd].
  unfold level.
  set (d := Z.to_nat (steps m !!! k)).
  assert (Hdiv : ∀ a i, (i < a / d)%nat → (i < a)%nat).
  { intros a i Hi. eapply Nat.lt_le_trans; [exact Hi|].
    apply Nat.Div0.div_le_upper_bound. nia. }
  apply for_range_push_back. intros i acc1 Hi.
  apply for_range_push_back. intros j acc2 Hj.
  apply Hdiv in Hi, Hj.
  destruct k as [|k]; cbn [Nat.eqb].
  - rewrite !int_of_size_t_small by lia.
    apply calculateAnchorsZeroLevel_app.
  - rewrite calculateAnchors_app. done.
Qed.

Lemma centered_geometry (cx cy s : R) :
  let a := centered cx cy s in
  Anchor.right a - Anchor.left a = s
  ∧ Anchor.bottom a - Anchor.top a = s
  ∧ Anchor.left a + s / 2 = cx
  ∧ Anchor.top a + s / 2 = cy
  ∧ (Anchor.conversions →
     Anchor.getWidth a = s ∧ Anchor.getHeight a = s
     ∧ Anchor.getXCenter a = cx ∧ Anchor.getYCenter a = cy).
Proof.
  intros a.
  assert (Hfields : Anchor.right a - Anchor.left a = s
                    ∧ Anchor.bottom a - Anchor.top a = s
                    ∧ Anchor.left a + s / 2 = cx
                    ∧ Anchor.top a + s / 2 = cy).
  { subst a. unfold centered.
    cbn [Anchor.left Anchor.right Anchor.top Anchor.bottom]. repeat split; lra. }
  destruct Hfields as (Hw & Hh & Hx & Hy).
  do 4 (split; [done|]). intros Hconv.
  destruct (Hconv a) as (Gw & Gh & Gx & Gy). repeat split; lra.
Qed.

Lemma length_cell_zero (sizes : list Z) (step : Z) (row col : nat) :
  length (cell 0 sizes step row col) = sum_list (per_cell <$> sizes).
Proof.
  unfold cell. induction sizes as [|s sizes IH]; [done|].
  rewrite bind_cons, length_app, IH, fmap_cons. cbn [sum_list sum_list_with].
  f_equal.
  rewrite (length_bind_const _ _ (length (sub_offsets s) * 1)%nat)
    by (intros oy; by apply length_bind_const).
  unfold sub_offsets, per_cell.
  destruct (s =? 32)%Z; [|destruct (s =? 64)%Z]; done.
Qed.

Lemma priorBoxes_anchors (m : ModelFaceBoxes) :
  config_ok m = true →
  anchors (priorBoxes m (featureMapsOf m))
  = anchors m ++ generate (netInputWidth m) (netInputHeight m) (steps m) (minSizes m).
Proof.
  intros Hok. unfold priorBoxes, generate. cbn [anchors set_anchors].
  replace (length (featureMapsOf m)) with (length (steps m))
    by (by rewrite featureMapsOf_map, length_map).
  apply for_range_push_back. intros k acc Hk.
  by apply priorBoxes_level.
Qed.

Lemma length_bind_sum {A B} (f : A → list B) (l : list A) :
  length (l ≫= f) = sum_list ((λ a, length (f a)) <$> l).
Proof.
  induction l as [|a l IH]; [done|].
  by rewrite bind_cons, length_app, IH.
Qed.

Lemma length_level (inputWidth inputHeight : nat) (steps : list Z)
    (minSizes : list (list Z)) (k : nat) :
  length (level inputWidth inputHeight steps minSizes k)
  = (inputHeight / Z.to_nat (steps !!! k)
     * (inputWidth / Z.to_nat (steps !!! k)
        * match k with
          | O => sum_list (per_cell <$> minSizes !!! k)
          | S _ => 1
          end))%nat.
Proof.
  unfold level.
  rewrite (length_bind_const _ _
    (inputWidth / Z.to_nat (steps !!! k)
     * match k with
       | O => sum_list (per_cell <$> minSizes !!! k)
       | S _ => 1
       end)%nat).
  - by rewrite length_seq.
  - intros row. erewrite length_bind_const; [by rewrite length_seq|].
    intros col. destruct k; [apply length_cell_zero|done].
Qed.

Lemma length_generate (inputWidth inputHeight : nat) (steps : list Z)
    (minSizes : list (list Z)) :
  length (generate inputWidth inputHeight steps minSizes)
  = sum_list ((λ k, length (level inputWidth inputHeight steps minSizes k))
              <$> seq 0 (length steps)).
Proof. apply length_bind_sum. Qed.

(** C1: the anchor list is the one the specification describes: levels in
    ascending order, rows outside and columns inside each level; a level-0
    cell holds, for each min-size [s], 16 anchors at sub-offsets
    0, .25, .5, .75 when [s = 32], 4 at sub-offsets 0, .5 when [s = 64] and one
    at (.5, .5) otherwise; a cell of a later level holds one anchor centered
    at ((col+0.5)*step, (row+0.5)*step) of size minSizes[k][0]; every anchor
    of min-size [s] has right − left = bottom − top = [s], which is its width
    and height whenever the accessors follow the data model. *)
Theorem anchor_generation (m : ModelFaceBoxes) :
  config_ok m = true →
  anchors (priorBoxes m (featureMapsOf m))
  = anchors m ++ generate (netInputWidth m) (netInputHeight m) (steps m) (minSizes m)
  ∧ (∀ step row col s,
       cell 0 [s] step row col
       = (oy ← sub_offsets s; ox ← sub_offsets s;
          [centered ((INR col + ox) * IZR step) ((INR row + oy) * IZR step) (IZR s)])
       ∧ length (cell 0 [s] step row col) = per_cell s)
  ∧ (∀ sizes step row col,
       length (cell 0 sizes step row col) = sum_list (per_cell <$> sizes))
  ∧ (sub_offsets 32 = [0; 0.25; 0.5; 0.75] ∧ per_cell 32 = 16%nat)
  ∧ (sub_offsets 64 = [0; 0.5] ∧ per_cell 64 = 4%nat)
  ∧ (∀ s, s ≠ 32%Z → s ≠ 64%Z → sub_offsets s = [0.5] ∧ per_cell s = 1%nat)
  ∧ (∀ k sizes step row col,
       cell (S k) sizes step row col
       = [centered ((INR col + 0.5) * IZR step) ((INR row + 0.5) * IZR step)
                   (IZR (sizes !!! 0%nat))])
  ∧ (∀ cx cy s,
       let a := centered cx cy s in
       Anchor.right a - Anchor.left a = s
       ∧ Anchor.bottom a - Anchor.top a = s
       ∧ Anchor.left a + s / 2 = cx
       ∧ Anchor.top a + s / 2 = cy
       ∧ (Anchor.conversions →
          Anchor.getWidth a = s ∧ Anchor.getHeight a = s
          ∧ Anchor.getXCenter a = cx ∧ Anchor.getYCenter a = cy)).
Proof.
  intros Hok. repeat apply conj.
  - by apply priorBoxes_anchors.
  - intros step row col s. split.
    + unfold cell. rewrite bind_cons. apply app_nil_r.
    + rewrite length_cell_zero. cbn. lia.
  - apply length_cell_zero.
  - done.
  - done.
  - done.
  - done.
  - intros s H32 H64. unfold sub_offsets, per_cell.
    by rewrite (proj2 (Z.eqb_neq s 32) H32), (proj2 (Z.eqb_neq s 64) H64).
  - done.
  - apply centered_geometry.
Qed.

End AnchorGenerationClaim.

(** ** Score filter *)

Section ScoreFilter.
Local Open Scope R_scope.

Lemma Rgtb_true (a b : R) : Rgtb a b = true ↔ a > b.
Proof. unfold Rgtb. destruct (Rgt_dec a b); split; (done || lra). Qed.

Lemma Rltb_true (a b : R) : Rltb a b = true ↔ a < b.
Proof. unfold Rltb. destruct (Rlt_dec a b); split; (done || lra). Qed.

(** The loop started on pair [c] appends the kept pairs among [c], [c+1], ...
    up to the last complete pair. *)
Lemma filterScores_loop_spec (scoresPtr : list R) (thr : R) (n d : nat) :
  ∀ (c : nat) (st : list nat * list R),
    d = (n / 2 - c)%nat →
    let kept :=
      List.filter (λ k, Rgtb (scoresPtr !!! (2 * k + 1)%nat) thr) (seq c d) in
    filterScores_loop scoresPtr thr n (2 * c + 1) st
    = (st.1 ++ kept, st.2 ++ map (λ k, scoresPtr !!! (2 * k + 1)%nat) kept).
Proof.
  induction d as [|d IH]; intros c st Hd kept; subst kept;
    rewrite filterScores_loop_equation_1;
    destruct (lt_dec (2 * c + 1) n) as [Hlt|Hge]; simp filterScores_loop;
    cbn [seq List.filter map].
  - exfalso.
    assert (c < n / 2)%nat by (apply Nat.div_le_lower_bound; lia). lia.
  - rewrite !app_nil_r. by destruct st.
  - rewrite <- filterScores_loop_equation_1.
    replace (2 * c + 1 + 2)%nat with (2 * S c + 1)%nat by lia.
    rewrite IH by lia.
    replace ((2 * c + 1) / 2)%nat with c
      by (apply Nat.div_unique with 1%nat; lia).
    destruct (Rgtb (scoresPtr !!! (2 * c + 1)%nat) thr); cbn [fst snd map];
      unfold push_back; by rewrite <- ?app_assoc.
  - exfalso. pose proof (Nat.Div0.mul_div_le n 2). lia.
Qed.

Lemma filterScores_spec (t : Tensor) (thr : R) :
  (filterScores t thr).1
  = List.filter (λ k, Rgtb (foreground t k) thr) (seq 0 (candidates t))
  ∧ (filterScores t thr).2 = map (foreground t) (filterScores t thr).1.
Proof.
  unfold filterScores, candidates, foreground.
  set (n := (get_shape t !!! 1%nat * get_shape t !!! 2%nat)%nat).
  pose proof (filterScores_loop_spec (data t) thr n (n / 2 - 0) 0 ([], [])
                eq_refl) as H.
  rewrite Nat.sub_0_r in H. cbv zeta in H.
  change (2 * 0 + 1)%nat with 1%nat in H at 1.
  cbv zeta. rewrite H. done.
Qed.

Lemma StronglySorted_seq (a n : nat) : StronglySorted lt (seq a n).
Proof.
  revert a. induction n as [|n IH]; intros a; cbn [seq]; constructor; [done|].
  apply Forall_forall. intros k Hk. apply elem_of_seq in Hk. lia.
Qed.

Lemma StronglySorted_filter {A} (R : relation A) (f : A → bool) (l : list A) :
  StronglySorted R l → StronglySorted R (List.filter f l).
Proof.
  induction 1 as [|a l Hl IH Ha]; cbn [List.filter]; [constructor|].
  destruct (f a); [|done].
  constructor; [done|].
  apply Forall_forall. intros b Hb.
  apply list_elem_of_In, filter_In in Hb as [Hb _].
  rewrite Forall_forall in Ha. by apply Ha, list_elem_of_In.
Qed.

Lemma elem_of_filterScores (t : Tensor) (thr : R) (k : nat) :
  k ∈ (filterScores t thr).1 ↔ (k < candidates t)%nat ∧ foreground t k > thr.
Proof.
  rewrite (proj1 (filterScores_spec t thr)), list_elem_of_In, filter_In.
  rewrite <- list_elem_of_In, elem_of_seq, Rgtb_true. intuition lia.
Qed.

(** C3: the score filter keeps candidate [k] exactly when its foreground score
    is strictly greater than the threshold; the two sequences it returns are
    index-aligned (the [i]-th score is the foreground score of the [i]-th kept
    candidate) and ordered by ascending candidate index. *)
Theorem score_filter_strict (t : Tensor) (thr : R) :
  (∀ k, k ∈ (filterScores t thr).1
        ↔ (k < candidates t)%nat ∧ foreground t k > thr)
  ∧ (filterScores t thr).2 = map (foreground t) (filterScores t thr).1
  ∧ length (filterScores t thr).2 = length (filterScores t thr).1
  ∧ StronglySorted lt (filterScores t thr).1.
Proof.
  split; [apply elem_of_filterScores|].
  destruct (filterScores_spec t thr) as [H1 H2].
  split; [done|]. split.
  - by rewrite H2, length_map.
  - rewrite H1. apply StronglySorted_filter, StronglySorted_seq.
Qed.

(** C7: raising the threshold can only remove candidates: the indices kept at
    [t2] are among those kept at [t1] whenever [t1 <= t2]. *)
Theorem score_filter_monotone (t : Tensor) (t1 t2 : R) :
  t1 <= t2 → (filterScores t t2).1 ⊆ (filterScores t t1).1.
Proof.
  intros Hle k. rewrite !elem_of_filterScores.
  intros [Hk Hgt]. split; [done|lra].
Qed.

End ScoreFilter.

(** ** Box decoder *)

Section BoxDecoder.
Local Open Scope R_scope.
Context {accessors : Anchor.Accessors}.

Lemma filterBoxes_map (boxesTensor : Tensor) (anchors : list Anchor.t)
    (validIndices : list nat) (variance : list R) :
  filterBoxes boxesTensor anchors validIndices variance
  = map (decodeBox (data boxesTensor) (get_shape boxesTensor) anchors variance)
        validIndices.
Proof.
  unfold filterBoxes.
  rewrite (for_each_push_back
    (λ i, [decodeBox (data boxesTensor) (get_shape boxesTensor) anchors variance i]))
    by done.
  cbn [app]. induction validIndices as [|i l IH]; [done|].
  rewrite bind_cons, IH. done.
Qed.

(** C2: the decoded boxes are index-aligned with the filtered indices; the box
    decoded for index [i] with anchor [A] and deltas (dx, dy, dw, dh) is
    center minus / plus half the size, for the center
    (dx*variance[0]*A.width + A.centerX, dy*variance[0]*A.height + A.centerY)
    and the size (exp(dw*variance[1])*A.width, exp(dh*variance[1])*A.height);
    when the accessors follow the data model these are its center and size,
    and with four zero deltas it is the anchor itself. *)
Theorem box_decoder (boxesTensor : Tensor) (anchors : list Anchor.t)
    (validIndices : list nat) (variance : list R) :
  let decoded i :=
    decodeBox (data boxesTensor) (get_shape boxesTensor) anchors variance i in
  let delta i n :=
    data boxesTensor !!! (get_shape boxesTensor !!! 2%nat * i + n)%nat in
  let centerX i :=
    delta i 0%nat * variance !!! 0%nat * Anchor.getWidth (anchors !!! i)
    + Anchor.getXCenter (anchors !!! i) in
  let centerY i :=
    delta i 1%nat * variance !!! 0%nat * Anchor.getHeight (anchors !!! i)
    + Anchor.getYCenter (anchors !!! i) in
  let width i :=
    exp (delta i 2%nat * variance !!! 1%nat) * Anchor.getWidth (anchors !!! i) in
  let height i :=
    exp (delta i 3%nat * variance !!! 1%nat) * Anchor.getHeight (anchors !!! i) in
  filterBoxes boxesTensor anchors validIndices variance = map decoded validIndices
  ∧ (∀ i, decoded i
          = Anchor.mk (centerX i - width i / 2) (centerY i - height i / 2)
                      (centerX i + width i / 2) (centerY i + height i / 2))
  ∧ (Anchor.conversions →
     ∀ i, Anchor.getXCenter (decoded i) = centerX i
          ∧ Anchor.getYCenter (decoded i) = centerY i
          ∧ Anchor.getWidth (decoded i) = width i
          ∧ Anchor.getHeight (decoded i) = height i)
  ∧ (Anchor.conversions →
     ∀ i, delta i 0%nat = 0 ∧ delta i 1%nat = 0
          ∧ delta i 2%nat = 0 ∧ delta i 3%nat = 0 →
          decoded i = anchors !!! i).
Proof.
  intros decoded delta centerX centerY width height.
  assert (Hbox : ∀ i, decoded i
          = Anchor.mk (centerX i - width i / 2) (centerY i - height i / 2)
                      (centerX i + width i / 2) (centerY i + height i / 2)).
  { intros i. subst decoded delta centerX centerY width height. cbv beta.
    unfold decodeBox. rewrite Nat.add_0_r. f_equal; lra. }
  split; [apply filterBoxes_map|]. split; [done|]. split.
  - intros Hconv i. rewrite Hbox.
    destruct (Hconv (Anchor.mk (centerX i - width i / 2) (centerY i - height i / 2)
                       (centerX i + width i / 2) (centerY i + height i / 2)))
      as (Gw & Gh & Gx & Gy).
    cbn [Anchor.left Anchor.right Anchor.top Anchor.bottom] in *.
    repeat split; lra.
  - intros Hconv i (Hx & Hy & Hw & Hh). rewrite Hbox.
    subst centerX centerY width height. cbv beta.
    rewrite Hx, Hy, Hw, Hh, !Rmult_0_l, exp_0.
    destruct (Hconv (anchors !!! i)) as (Gw & Gh & Gx & Gy).
    destruct (anchors !!! i) as [l t r b].
    cbn [Anchor.left Anchor.right Anchor.top Anchor.bottom] in *.
    f_equal; lra.
Qed.

End BoxDecoder.

(** ** Detection assembly *)

Section DetectionAssembly.
Local Open Scope R_scope.
Context {accessors : Anchor.Accessors}.

Lemma clamp_bounds (value low high : R) :
  low <= high → low <= clamp value low high <= high.
Proof.
  intros H. unfold clamp, Rltb, Rgtb.
  destruct (Rlt_dec value low); [lra|].
  destruct (Rgt_dec value high); lra.
Qed.

Lemma clamp_inside (value low high : R) :
  low <= value <= high → clamp value low high = value.
Proof.
  intros H. unfold clamp, Rltb, Rgtb.
  destruct (Rlt_dec value low); [lra|].
  destruct (Rgt_dec value high); lra.
Qed.

Lemma clamp_above (value low high : R) :
  low <= high → high <= value → clamp value low high = high.
Proof.
  intros H1 H2. unfold clamp, Rltb, Rgtb.
  destruct (Rlt_dec value low); [lra|].
  destruct (Rgt_dec value high); lra.
Qed.

Lemma postprocess_unfold (m : ModelFaceBoxes) (infResult : InferenceResult) :
  postprocess m infResult
  = (scoresTensor ← outputTensor infResult (outputNames m !!! 1%nat);
     boxesTensor ← outputTensor infResult (outputNames m !!! 0%nat);
     mret (detections m scoresTensor boxesTensor
             (inputImgWidth infResult) (inputImgHeight infResult))).
Proof.
  unfold postprocess.
  destruct (outputTensor infResult (outputNames m !!! 1%nat)) as [st|e];
    cbn [mbind outcome_bind]; [|done].
  destruct (outputTensor infResult (outputNames m !!! 0%nat)) as [bt|e];
    cbn [mbind outcome_bind mret outcome_ret]; [|done].
  unfold detections. do 2 f_equal.
  set (scores := filterScores st (confidence_threshold m)).
  set (boxes := filterBoxes bt (anchors m) scores.1 (variance m)).
  rewrite (for_each_push_back (λ i, [describe m boxes scores.2
              (inputImgWidth infResult) (inputImgHeight infResult)
              (INR (netInputWidth m) / IZR (inputImgWidth infResult))
              (INR (netInputHeight m) / IZR (inputImgHeight infResult)) i]))
    by done.
  cbn [app]. induction (Nms.nms boxes scores.2 (iou_threshold m)) as [|i l IH];
    [done|].
  rewrite bind_cons, IH. done.
Qed.

(** What [postprocess] returns once both tensors are found. *)
Lemma postprocess_returns (m : ModelFaceBoxes) (infResult : InferenceResult)
    (scoresTensor boxesTensor : Tensor) :
  outputsData infResult !! (outputNames m !!! 1%nat) = Some scoresTensor →
  outputsData infResult !! (outputNames m !!! 0%nat) = Some boxesTensor →
  postprocess m infResult
  = Returns (detections m scoresTensor boxesTensor
               (inputImgWidth infResult) (inputImgHeight infResult)).
Proof.
  intros Hs Hb. rewrite postprocess_unfold. unfold outputTensor.
  rewrite Hs. cbn [mbind outcome_bind]. by rewrite Hb.
Qed.

Lemma postprocess_inv (m : ModelFaceBoxes) (infResult : InferenceResult)
    (result : DetectionResult) :
  postprocess m infResult = Returns result →
  ∃ scoresTensor boxesTensor,
    outputsData infResult !! (outputNames m !!! 1%nat) = Some scoresTensor
    ∧ outputsData infResult !! (outputNames m !!! 0%nat) = Some boxesTensor.
Proof.
  unfold postprocess, outputTensor.
  destruct (outputsData infResult !! (outputNames m !!! 1%nat)) as [st|];
    cbn [mbind outcome_bind]; [|done].
  destruct (outputsData infResult !! (outputNames m !!! 0%nat)) as [bt|];
    cbn [mbind outcome_bind]; [|done].
  eauto.
Qed.

(** C5: the detections are, in order, [describe] applied to the boxes decoded
    by [filterBoxes] at the indices kept by [nms], with
    scaleX = netInputWidth / imageWidth and scaleY = netInputHeight /
    imageHeight: x and y are the scaled left and top clamped to the image,
    width and height are the scaled width and height of the box (right − left
    and bottom − top when the accessors follow the data model), each clamped
    on its own to [0, imageWidth] and [0, imageHeight]; all four lie within
    these bounds, and x + width can exceed the image width. *)
Theorem detection_assembly :
  (∀ m infResult result,
     postprocess m infResult = Returns result →
     ∃ scoresTensor boxesTensor,
       outputsData infResult !! (outputNames m !!! 1%nat) = Some scoresTensor
       ∧ outputsData infResult !! (outputNames m !!! 0%nat) = Some boxesTensor
       ∧ let scores := filterScores scoresTensor (confidence_threshold m) in
         let boxes := filterBoxes boxesTensor (anchors m) scores.1 (variance m) in
         let keep := Nms.nms boxes scores.2 (iou_threshold m) in
         objects result
         = map (describe m boxes scores.2
                  (inputImgWidth infResult) (inputImgHeight infResult)
                  (INR (netInputWidth m) / IZR (inputImgWidth infResult))
                  (INR (netInputHeight m) / IZR (inputImgHeight infResult))) keep)
  ∧ (∀ m boxes scores imgWidth imgHeight scaleX scaleY i,
       let d := describe m boxes scores imgWidth imgHeight scaleX scaleY i in
       let box := boxes !!! i in
       x d = clamp (Anchor.left box / scaleX) 0 (IZR imgWidth)
       ∧ y d = clamp (Anchor.top box / scaleY) 0 (IZR imgHeight)
       ∧ width d = clamp (Anchor.getWidth box / scaleX) 0 (IZR imgWidth)
       ∧ height d = clamp (Anchor.getHeight box / scaleY) 0 (IZR imgHeight)
       ∧ (Anchor.conversions →
          width d = clamp ((Anchor.right box - Anchor.left box) / scaleX)
                      0 (IZR imgWidth)
          ∧ height d = clamp ((Anchor.bottom box - Anchor.top box) / scaleY)
                         0 (IZR imgHeight)))
  ∧ (∀ m boxes scores imgWidth imgHeight scaleX scaleY i,
       (0 <= imgWidth)%Z → (0 <= imgHeight)%Z →
       let d := describe m boxes scores imgWidth imgHeight scaleX scaleY i in
       0 <= x d <= IZR imgWidth ∧ 0 <= width d <= IZR imgWidth
       ∧ 0 <= y d <= IZR imgHeight ∧ 0 <= height d <= IZR imgHeight)
  ∧ (Anchor.conversions →
     ∃ m boxes scores imgWidth imgHeight i,
       let d := describe m boxes scores imgWidth imgHeight
                  (INR (netInputWidth m) / IZR imgWidth)
                  (INR (netInputHeight m) / IZR imgHeight) i in
       width d = IZR imgWidth ∧ x d + width d > IZR imgWidth).
Proof.
  split; [|split; [|split]].
  - intros m infResult result Hres.
    destruct (postprocess_inv _ _ _ Hres) as (st & bt & Hs & Hb).
    rewrite (postprocess_returns m infResult st bt Hs Hb) in Hres.
    injection Hres as <-. exists st, bt. done.
  - intros. subst d box. do 4 (split; [done|]). intros Hconv.
    destruct (Hconv (boxes !!! i)) as (Gw & Gh & _ & _).
    cbn [width height describe]. by rewrite Gw, Gh.
  - intros m boxes scores imgWidth imgHeight scaleX scaleY i HW HH d.
    apply IZR_le in HW, HH. subst d. cbn [x y width height describe].
    repeat split; by apply clamp_bounds.
  - intros Hconv.
    exists (mkModelFaceBoxes [] [] [] 0 0 [] [] [] 100 100 0 []),
      [Anchor.mk 50 0 150 10], [1], 100%Z, 100%Z, 0%nat.
    cbn [x width describe netInputWidth netInputHeight].
    change ([Anchor.mk 50 0 150 10] !!! 0%nat) with (Anchor.mk 50 0 150 10).
    destruct (Hconv (Anchor.mk 50 0 150 10)) as (Gw & _).
    rewrite Gw. cbn [Anchor.left Anchor.right].
    replace (INR 100) with 100 by (rewrite INR_IZR_INZ; done).
    rewrite clamp_above by lra.
    rewrite clamp_inside by lra. lra.
Qed.

End DetectionAssembly.

(** ** Sorting *)

Section Sorting.
Context {A : Type} (before : A → A → bool).

Lemma insert_sorted_Permutation (x : A) (l : list A) :
  insert_sorted before x l ≡ₚ x :: l.
Proof.
  induction l as [|y l IH]; cbn [insert_sorted]; [done|].
  destruct (before y x); [|done].
  rewrite IH. apply Permutation_swap.
Qed.

Lemma sort_Permutation (l : list A) : sort before l ≡ₚ l.
Proof.
  induction l as [|x l IH]; [done|].
  cbn [sort foldr]. fold (sort before l).
  by rewrite insert_sorted_Permutation, IH.
Qed.

Hypothesis Htotal : ∀ a b, before a b = false → before b a = true.
Hypothesis Htrans :
  ∀ a b c, before a b = true → before b c = true → before a c = true.

Lemma insert_sorted_StronglySorted (x : A) (l : list A) :
  StronglySorted (λ a b, before a b = true) l →
  StronglySorted (λ a b, before a b = true) (insert_sorted before x l).
Proof.
  induction 1 as [|y l Hl IH Hy]; cbn [insert_sorted].
  - repeat constructor.
  - destruct (before y x) eqn:Hyx.
    + constructor; [done|].
      rewrite insert_sorted_Permutation. by constructor.
    + apply Htotal in Hyx.
      constructor; [by constructor|].
      constructor; [done|].
      eapply Forall_impl; [exact Hy|]. intros z Hz. by eapply Htrans.
Qed.

Lemma sort_StronglySorted (l : list A) :
  StronglySorted (λ a b, before a b = true) (sort before l).
Proof.
  induction l as [|x l IH]; [constructor|].
  cbn [sort foldr]. by apply insert_sorted_StronglySorted.
Qed.

End Sorting.

Lemma sublist_StronglySorted {A} (R : relation A) (l k : list A) :
  l `sublist_of` k → StronglySorted R k → StronglySorted R l.
Proof.
  induction 1 as [|x l k Hsub IH|x l k Hsub IH]; intros Hk; [done| |].
  - apply StronglySorted_inv in Hk as [Hk Hx].
    constructor; [by apply IH|].
    apply Forall_forall. intros y Hy. rewrite Forall_forall in Hx.
    apply Hx. by eapply sublist_subseteq.
  - apply StronglySorted_inv in Hk as [Hk _]. by apply IH.
Qed.

Lemma StronglySorted_impl {A} (R1 R2 : relation A) (l : list A) :
  (∀ a b, R1 a b → R2 a b) → StronglySorted R1 l → StronglySorted R2 l.
Proof.
  intros HR. induction 1 as [|a l Hl IH Ha]; constructor; [done|].
  eapply Forall_impl; [exact Ha|]. intros b. apply HR.
Qed.

(** ** Non-maximum suppression *)

Section NmsFacts.
Local Open Scope R_scope.
Import Nms.

Lemma before_spec (scores : list R) (i j : nat) :
  before scores i j = true
  ↔ scores !!! i > scores !!! j ∨ (scores !!! i = scores !!! j ∧ (i <= j)%nat).
Proof.
  unfold before.
  rewrite orb_true_iff, andb_true_iff, Rgtb_true, bool_decide_eq_true,
    Nat.leb_le.
  done.
Qed.

Lemma before_total (scores : list R) (i j : nat) :
  before scores i j = false → before scores j i = true.
Proof.
  intros H. apply before_spec.
  destruct (before scores i j) eqn:E; [done|]. clear H.
  assert (¬ (scores !!! i > scores !!! j
             ∨ scores !!! i = scores !!! j ∧ (i <= j)%nat)) as Hn.
  { intros Hc. apply before_spec in Hc. congruence. }
  destruct (Rtotal_order (scores !!! i) (scores !!! j)) as [Hlt|[Heq|Hgt]].
  - left. lra.
  - right. split; [done|]. destruct (decide (i <= j)%nat); [|lia].
    exfalso. apply Hn. by right.
  - exfalso. apply Hn. by left.
Qed.

Lemma before_trans (scores : list R) (i j k : nat) :
  before scores i j = true → before scores j k = true →
  before scores i k = true.
Proof.
  rewrite !before_spec. intros [H1|[H1 H1']] [H2|[H2 H2']].
  - left. lra.
  - left. lra.
  - left. lra.
  - right. split; [congruence|lia].
Qed.

Lemma greedy_sublist (boxes : list Anchor.t) (thresh : R) (order : list nat) :
  greedy boxes thresh order `sublist_of` order.
Proof.
  funelim (greedy boxes thresh order); simp greedy; [done|].
  apply sublist_skip.
  etrans; [eassumption|]. apply sublist_filter.
Qed.

Lemma greedy_separated (boxes : list Anchor.t) (thresh : R) (order : list nat) :
  StronglySorted (λ i j, overlaps boxes thresh i j = false)
    (greedy boxes thresh order).
Proof.
  funelim (greedy boxes thresh order); simp greedy; [constructor|].
  constructor; [done|].
  apply Forall_forall. intros j Hj.
  eapply sublist_subseteq in Hj; [|apply greedy_sublist].
  by apply list_elem_of_filter in Hj as [Hj _].
Qed.

Lemma greedy_suppressed (Rel : relation nat) (boxes : list Anchor.t) (thresh : R)
    (order : list nat) (j : nat) :
  StronglySorted Rel order → j ∈ order → j ∉ greedy boxes thresh order →
  ∃ i, i ∈ greedy boxes thresh order ∧ Rel i j ∧ overlaps boxes thresh i j = true.
Proof.
  funelim (greedy boxes thresh order); simp greedy; intros Hsorted Hj Hnot.
  - by apply elem_of_nil in Hj.
  - apply StronglySorted_inv in Hsorted as [Hrest Hi].
    apply elem_of_cons in Hj as [->|Hj]; [set_solver|].
    destruct (overlaps boxes thresh i j) eqn:Hov.
    + exists i. split; [set_solver|]. split; [|done].
      rewrite Forall_forall in Hi. by apply Hi.
    + destruct (H Rel j) as (i' & Hi' & HRel & Hov').
      * eapply sublist_StronglySorted; [apply sublist_filter|done].
      * apply list_elem_of_filter. done.
      * set_solver.
      * exists i'. split; [set_solver|done].
Qed.

Lemma greedy_head (boxes : list Anchor.t) (thresh : R) (i : nat) (rest : list nat) :
  head (greedy boxes thresh (i :: rest)) = Some i.
Proof. by simp greedy. Qed.

(** C4: [nms] is the greedy selection on the candidates sorted by descending
    score, ties by lower index.  The sorted order is the arrangement of all
    candidate indices in which a higher score, or an equal score with a lower
    index, comes first; the result keeps that order; the best candidate is
    always kept; no kept box overlaps an earlier kept box by more than the
    threshold; every candidate that is not kept is overlapped, by more than
    the threshold, by a kept candidate that comes before it. *)
Theorem nms_greedy (boxes : list Anchor.t) (scores : list R) (thresh : R) :
  let order := sort (before scores) (seq 0 (length scores)) in
  let first i j :=
    scores !!! i > scores !!! j ∨ (scores !!! i = scores !!! j ∧ (i <= j)%nat) in
  let keep := nms boxes scores thresh in
  keep = greedy boxes thresh order
  ∧ order ≡ₚ seq 0 (length scores)
  ∧ StronglySorted first order
  ∧ keep `sublist_of` order
  ∧ StronglySorted first keep
  ∧ head keep = head order
  ∧ StronglySorted (λ i j, ¬ iou (boxes !!! i) (boxes !!! j) > thresh) keep
  ∧ (∀ j, (j < length scores)%nat → j ∉ keep →
       ∃ i, i ∈ keep ∧ first i j ∧ iou (boxes !!! i) (boxes !!! j) > thresh).
Proof.
  intros order first keep.
  assert (Horder : StronglySorted first order).
  { eapply StronglySorted_impl;
      [|apply sort_StronglySorted; [apply before_total|apply before_trans]].
    intros i j H. by apply before_spec in H. }
  assert (Hsub : keep `sublist_of` order) by apply greedy_sublist.
  split; [done|]. split; [apply sort_Permutation|]. split; [done|].
  split; [done|]. split; [by eapply sublist_StronglySorted|]. split.
  - subst keep. unfold nms. fold order.
    destruct order as [|i rest]; [by simp greedy|]. by rewrite greedy_head.
  - split.
    + eapply StronglySorted_impl; [|apply greedy_separated].
      intros i j H Hgt. apply Rgtb_true in Hgt.
      unfold overlaps in H. congruence.
    + intros j Hj Hnot.
      destruct (greedy_suppressed first boxes thresh order j) as (i & Hi & Hf & Hov);
        [done| |done|].
      * subst order. rewrite sort_Permutation. apply elem_of_seq. lia.
      * exists i. split; [done|]. split; [done|]. by apply Rgtb_true.
Qed.

Lemma nms_nil (boxes : list Anchor.t) (thresh : R) : nms boxes [] thresh = [].
Proof. unfold nms. cbn [length seq sort foldr]. by simp greedy. Qed.

End NmsFacts.

(** ** Empty results *)

Section EmptyResult.
Local Open Scope R_scope.
Context {accessors : Anchor.Accessors}.

Lemma filterScores_nil (t : Tensor) (thr : R) :
  (∀ k, (k < candidates t)%nat → ¬ foreground t k > thr) →
  filterScores t thr = ([], []).
Proof.
  intros Hnone.
  destruct (filterScores_spec t thr) as [H1 H2].
  assert (Hnil : (filterScores t thr).1 = []).
  { apply elem_of_nil_inv. intros k Hk.
    apply elem_of_filterScores in Hk as [Hk Hgt]. by apply (Hnone k). }
  rewrite Hnil in H2. cbn [map] in H2.
  destruct (filterScores t thr) as [indices scores]. cbn [fst snd] in *.
  by rewrite Hnil, H2.
Qed.

(** C8: when no foreground score exceeds the confidence threshold,
    [postprocess] returns (it does not throw) and the detection list of its
    result is empty. *)
Theorem postprocess_empty (m : ModelFaceBoxes) (infResult : InferenceResult)
    (scoresTensor boxesTensor : Tensor) :
  outputsData infResult !! (outputNames m !!! 1%nat) = Some scoresTensor →
  outputsData infResult !! (outputNames m !!! 0%nat) = Some boxesTensor →
  (∀ k, (k < candidates scoresTensor)%nat →
        ¬ foreground scoresTensor k > confidence_threshold m) →
  postprocess m infResult = Returns (mkDetectionResult []).
Proof.
  intros Hs Hb Hnone.
  rewrite (postprocess_returns m infResult scoresTensor boxesTensor Hs Hb).
  unfold detections. rewrite (filterScores_nil _ _ Hnone). cbn [fst snd].
  by rewrite nms_nil.
Qed.

End EmptyResult.

(** ** Model setup *)

Section Setup.

(** The model object that [prepareInputsOutputs] builds when every check
    passes. *)
Lemma prepareInputsOutputs_returns (m : ModelFaceBoxes) (model : OvModel)
    (input out0 out1 : Port) (c w h : nat) :
  inputs model = [input] →
  channels_idx (getInputLayout input) = Returns c →
  port_shape input !!! c = 3%nat →
  width_idx (getInputLayout input) = Returns w →
  height_idx (getInputLayout input) = Returns h →
  outputs model = [out0; out1] →
  let m' :=
    mkModelFaceBoxes (steps m) (minSizes m) (variance m)
      (confidence_threshold m) (iou_threshold m) (labels m)
      (inputNames m ++ [get_any_name input])
      (sort String.ltb (outputNames m ++ [get_any_name out0; get_any_name out1]))
      (port_shape input !!! w) (port_shape input !!! h)
      (port_shape out0 !!! 1%nat) (anchors m) in
  prepareInputsOutputs m model = Returns (priorBoxes m' (featureMapsOf m')).
Proof.
  intros Hin Hc H3 Hw Hh Hout m'.
  unfold prepareInputsOutputs. rewrite Hin, Hout.
  cbn [length Nat.eqb negb].
  change ([input] !!! 0%nat) with input.
  rewrite Hc. cbn [mbind outcome_bind]. rewrite H3. cbn [Nat.eqb negb].
  rewrite Hw. cbn [mbind outcome_bind]. rewrite Hh. cbn [mbind outcome_bind].
  change (height_idx "CHW") with (Returns (A := nat) 1%nat).
  cbn [mbind outcome_bind mret outcome_ret].
  unfold for_each, push_back. cbn [fold_left].
  by rewrite <- app_assoc.
Qed.

(** [prepareInputsOutputs] returns only when every check passes. *)
Lemma prepareInputsOutputs_inv (m m' : ModelFaceBoxes) (model : OvModel) :
  prepareInputsOutputs m model = Returns m' →
  ∃ input out0 out1 c w h,
    inputs model = [input]
    ∧ channels_idx (getInputLayout input) = Returns c
    ∧ port_shape input !!! c = 3%nat
    ∧ width_idx (getInputLayout input) = Returns w
    ∧ height_idx (getInputLayout input) = Returns h
    ∧ outputs model = [out0; out1].
Proof.
  unfold prepareInputsOutputs.
  destruct (inputs model) as [|input [|? ?]] eqn:Hin; cbn [length Nat.eqb negb];
    [done| |done].
  change ([input] !!! 0%nat) with input.
  destruct (channels_idx (getInputLayout input)) as [c|] eqn:Hc;
    cbn [mbind outcome_bind]; [|done].
  destruct (port_shape input !!! c =? 3)%nat eqn:H3; cbn [negb]; [|done].
  destruct (width_idx (getInputLayout input)) as [w|] eqn:Hw;
    cbn [mbind outcome_bind]; [|done].
  destruct (height_idx (getInputLayout input)) as [h|] eqn:Hh;
    cbn [mbind outcome_bind]; [|done].
  destruct (outputs model) as [|out0 [|out1 [|? ?]]] eqn:Hout;
    cbn [length Nat.eqb negb]; [done|done| |done].
  intros _. apply Nat.eqb_eq in H3.
  exists input, out0, out1, c, w, h. done.
Qed.

Lemma sort_two (a b : string) :
  sort String.ltb [a; b] = if String.ltb b a then [b; a] else [a; b].
Proof. done. Qed.

Lemma ltb_leb (a b : string) : String.ltb a b = true → String.leb a b = true.
Proof. unfold String.ltb, String.leb. by destruct (String.compare a b). Qed.

Lemma not_ltb_leb (a b : string) : String.ltb b a = false → String.leb a b = true.
Proof.
  unfold String.ltb, String.leb. rewrite (String.compare_antisym a b).
  by destruct (String.compare b a).
Qed.

End Setup.

Section SetupClaims.
Import AnchorSpec.
Context {accessors : Anchor.Accessors}.

Lemma priorBoxes_fields (m : ModelFaceBoxes) (fm : list (nat * nat)) :
  outputNames (priorBoxes m fm) = outputNames m
  ∧ maxProposalsCount (priorBoxes m fm) = maxProposalsCount m
  ∧ netInputWidth (priorBoxes m fm) = netInputWidth m
  ∧ netInputHeight (priorBoxes m fm) = netInputHeight m
  ∧ steps (priorBoxes m fm) = steps m
  ∧ minSizes (priorBoxes m fm) = minSizes m.
Proof. done. Qed.

(** C9: after setup the output names are the two names of the model's outputs
    in alphabetical order, and every call of [postprocess] reads the box
    deltas from the first of them and the scores from the second; neither the
    shapes of the outputs nor the order in which the model declares them play
    a part. *)
Theorem output_roles (steps : list Z) (minSizes : list (list Z))
    (variance : list R) (confidence_threshold iou_threshold : R)
    (labels : list string) (model : OvModel) (m : ModelFaceBoxes) :
  prepareInputsOutputs
    (newModelFaceBoxes steps minSizes variance confidence_threshold
       iou_threshold labels) model = Returns m →
  ∃ first second,
    outputNames m = [first; second]
    ∧ outputNames m = sort String.ltb (get_any_name <$> outputs model)
    ∧ [first; second] ≡ₚ get_any_name <$> outputs model
    ∧ String.leb first second = true
    ∧ ∀ infResult,
        postprocess m infResult
        = (scoresTensor ← outputTensor infResult second;
           boxesTensor ← outputTensor infResult first;
           mret (detections m scoresTensor boxesTensor
                   (inputImgWidth infResult) (inputImgHeight infResult))).
Proof.
  intros Hsetup.
  destruct (prepareInputsOutputs_inv _ _ _ Hsetup)
    as (input & out0 & out1 & c & w & h & Hin & Hc & H3 & Hw & Hh & Hout).
  rewrite (prepareInputsOutputs_returns _ _ input out0 out1 c w h) in Hsetup
    by done.
  injection Hsetup as <-.
  rewrite (proj1 (priorBoxes_fields _ _)). cbn [outputNames newModelFaceBoxes app].
  rewrite Hout. cbn [fmap list_fmap]. rewrite ?sort_two.
  assert (Hread : ∀ (m : ModelFaceBoxes) a b, outputNames m = [a; b] →
    ∀ infResult,
      postprocess m infResult
      = (scoresTensor ← outputTensor infResult b;
         boxesTensor ← outputTensor infResult a;
         mret (detections m scoresTensor boxesTensor
                 (inputImgWidth infResult) (inputImgHeight infResult)))).
  { intros m a b Hm infResult. by rewrite postprocess_unfold, Hm. }
  destruct (String.ltb (get_any_name out1) (get_any_name out0)) eqn:Hlt.
  - exists (get_any_name out1), (get_any_name out0).
    split; [done|]. split; [done|]. split; [apply Permutation_swap|].
    split; [by apply ltb_leb|].
    apply Hread. rewrite (proj1 (priorBoxes_fields _ _)). cbn [outputNames app].
    by rewrite ?sort_two, ?Hlt.
  - exists (get_any_name out0), (get_any_name out1).
    split; [done|]. split; [done|]. split; [done|].
    split; [by apply not_ltb_leb|].
    apply Hread. rewrite (proj1 (priorBoxes_fields _ _)). cbn [outputNames app].
    by rewrite ?sort_two, ?Hlt.
Qed.

(** C6, as the code has it: the number of generated anchors is not compared
    with the declared maximum-proposal count.  Setup returns exactly when the
    model has one input with three channels (in a layout that names C, W and
    H) and two outputs; it then stores the count declared by the first output
    and the generated anchors, whatever their number. *)
Theorem setup_checks (m : ModelFaceBoxes) (model : OvModel) :
  ((∃ m', prepareInputsOutputs m model = Returns m')
   ↔ (∃ input out0 out1 c w h,
        inputs model = [input]
        ∧ channels_idx (getInputLayout input) = Returns c
        ∧ port_shape input !!! c = 3%nat
        ∧ width_idx (getInputLayout input) = Returns w
        ∧ height_idx (getInputLayout input) = Returns h
        ∧ outputs model = [out0; out1]))
  ∧ (∀ m', prepareInputsOutputs m model = Returns m' →
       maxProposalsCount m' = port_shape (outputs model !!! 0%nat) !!! 1%nat
       ∧ (config_ok m' = true →
          anchors m'
          = anchors m ++ generate (netInputWidth m') (netInputHeight m')
                           (steps m) (minSizes m))).
Proof.
  split.
  - split.
    + intros [m' Hm']. by eapply prepareInputsOutputs_inv.
    + intros (input & out0 & out1 & c & w & h & Hin & Hc & H3 & Hw & Hh & Hout).
      eexists. by eapply prepareInputsOutputs_returns.
  - intros m' Hsetup.
    destruct (prepareInputsOutputs_inv _ _ _ Hsetup)
      as (input & out0 & out1 & c & w & h & Hin & Hc & H3 & Hw & Hh & Hout).
    rewrite (prepareInputsOutputs_returns _ _ input out0 out1 c w h) in Hsetup
      by done.
    injection Hsetup as <-. rewrite Hout. split; [done|].
    intros Hok. rewrite priorBoxes_anchors; [done|].
    exact Hok.
Qed.

(** C6, counterexample: on a 128x128 input the FaceBoxes configuration
    generates 4*4*21 + 2*2 + 1 = 341 anchors; with outputs that declare 100
    proposals setup still returns. *)
Lemma setup_accepts_mismatch :
  ∃ m', prepareInputsOutputs Sample.faceboxes Sample.network = Returns m'
        ∧ maxProposalsCount m' = 100%nat
        ∧ length (anchors m') = (4 * 4 * 21 + 2 * 2 + 1)%nat
        ∧ length (anchors m') ≠ maxProposalsCount m'.
Proof.
  eexists. split.
  - apply (prepareInputsOutputs_returns Sample.faceboxes Sample.network
             (mkPort "input" [1; 3; 128; 128]%nat "NCHW")
             (mkPort "scores" [1; 100; 2]%nat "")
             (mkPort "boxes" [1; 100; 4]%nat "") 1 3 2); reflexivity.
  - assert (Hlen : ∀ m', config_ok m' = true →
      length (anchors (priorBoxes m' (featureMapsOf m')))
      = (length (anchors m')
         + length (generate (netInputWidth m') (netInputHeight m')
                     (steps m') (minSizes m')))%nat).
    { intros m' Hok. by rewrite priorBoxes_anchors, length_app. }
    rewrite Hlen by reflexivity.
    rewrite length_generate.
    cbn [steps minSizes netInputWidth netInputHeight anchors length
         Sample.faceboxes newModelFaceBoxes seq fmap list_fmap].
    rewrite !length_level.
    split; [reflexivity|]. split; [by vm_compute|]. by vm_compute.
Qed.

End SetupClaims.

(** ** Super-resolution post-processing *)

Section SuperResolution.
Local Open Scope R_scope.
Import SuperResolutionModel.

Lemma Int_part_IZR (z : Z) : Int_part (IZR z) = z.
Proof.
  destruct (base_Int_part (IZR z)) as [H1 H2].
  apply le_IZR in H1.
  assert (H3 : IZR z - 1 < IZR (Int_part (IZR z))) by lra.
  rewrite <- minus_IZR in H3. apply lt_IZR in H3. lia.
Qed.

Lemma cvRound_IZR (z : Z) : cvRound (IZR z) = z.
Proof.
  unfold cvRound. rewrite Int_part_IZR.
  replace (IZR z - IZR z) with 0 by lra.
  unfold Rltb. destruct (Rlt_dec 0 0.5); [done|lra].
Qed.

Lemma binary_pixel (v : R) :
  saturate_cast_uchar (cvRound ((if Rgtb v 0.5 then 1.0 else 0) * 255))
  = if Rgtb v 0.5 then 255%Z else 0%Z.
Proof.
  destruct (Rgtb v 0.5).
  - replace (1.0 * 255) with (IZR 255) by lra. by rewrite cvRound_IZR.
  - replace (0 * 255) with (IZR 0) by lra. by rewrite cvRound_IZR.
Qed.

(** C10: with one output channel the plane is binarised at 0.5 before the
    scaling by 255 to 8 bits, so every pixel becomes 255 (value above 0.5) or
    0; with three output channels the three planes are scaled and merged
    without any thresholding. *)
Theorem super_resolution_planes (outTensor : Tensor) :
  let outputData := data outTensor in
  let numOfPixels :=
    (get_shape outTensor !!! 3%nat * get_shape outTensor !!! 2%nat)%nat in
  (get_shape outTensor !!! 1%nat = 1%nat →
     resultImage (postprocess outTensor)
     = [convertTo_8UC1 (threshold_binary (Mat outputData 0 numOfPixels) 0.5 1.0) 255]
     ∧ resultImage (postprocess outTensor)
       = [map (λ v, if Rgtb v 0.5 then 255%Z else 0%Z) (Mat outputData 0 numOfPixels)])
  ∧ (get_shape outTensor !!! 1%nat = 3%nat →
     resultImage (postprocess outTensor)
     = [convertTo_8UC1 (Mat outputData 0 numOfPixels) 255;
        convertTo_8UC1 (Mat outputData numOfPixels numOfPixels) 255;
        convertTo_8UC1 (Mat outputData (numOfPixels * 2) numOfPixels) 255]).
Proof.
  intros outputData numOfPixels. split; intros Hc.
  - assert (H1 : resultImage (postprocess outTensor)
      = [convertTo_8UC1 (threshold_binary (Mat outputData 0 numOfPixels) 0.5 1.0) 255]).
    { unfold postprocess. by rewrite Hc. }
    split; [done|]. rewrite H1. f_equal.
    unfold convertTo_8UC1, threshold_binary. rewrite map_map.
    apply map_ext. intros v. apply binary_pixel.
  - unfold postprocess. by rewrite Hc.
Qed.

End SuperResolution.

(** ** The theorems at sample inputs *)

Section Witnesses.
Local Open Scope R_scope.
#[local] Existing Instance Anchor.data_model.

Lemma data_model_conversions : Anchor.conversions.
Proof. intros a. repeat split. Qed.

Lemma anchor_generation_witness :
  AnchorSpec.config_ok Sample.prepared = true
  ∧ anchors (priorBoxes Sample.prepared (featureMapsOf Sample.prepared))
    = AnchorSpec.generate 128 128 [32; 64; 128]%Z [[32; 64; 128]; [256]; [512]]%Z
  ∧ Anchor.getWidth (AnchorSpec.centered 16 16 32) = 32.
Proof.
  pose proof (anchor_generation Sample.prepared eq_refl)
    as (Hgen & _ & _ & _ & _ & _ & _ & Hgeo).
  split; [reflexivity|]. split.
  - exact Hgen.
  - apply (Hgeo 16 16 32). exact data_model_conversions.
Defined.

Lemma box_decoder_witness :
  decodeBox (data Sample.zero_deltas) (get_shape Sample.zero_deltas)
    Sample.twins [0.1; 0.2] 1
  = Anchor.mk 0 0 10 10.
Proof.
  apply (box_decoder Sample.zero_deltas Sample.twins [1%nat] [0.1; 0.2]).
  - exact data_model_conversions.
  - repeat split; reflexivity.
Defined.

Lemma score_filter_strict_witness : 1%nat ∈ (filterScores Sample.scores 0.5).1.
Proof.
  apply (score_filter_strict Sample.scores 0.5). split.
  - unfold candidates. cbn. lia.
  - unfold foreground. cbn. lra.
Defined.

Lemma score_filter_monotone_witness :
  0.5 <= 0.7
  ∧ (filterScores Sample.scores 0.7).1 ⊆ (filterScores Sample.scores 0.5).1.
Proof.
  split; [lra|]. apply score_filter_monotone. lra.
Defined.

Lemma twins_overlap : Nms.overlaps Sample.twins 0.5 0 1 = true.
Proof.
  apply Rgtb_true.
  change (Sample.twins !!! 0%nat) with (Anchor.mk 0 0 10 10).
  change (Sample.twins !!! 1%nat) with (Anchor.mk 0 0 10 10).
  unfold Nms.iou, Nms.intersection, Nms.area.
  cbn [Anchor.left Anchor.right Anchor.top Anchor.bottom].
  rewrite (Rmin_left 10 10), (Rmax_left 0 0), (Rmax_right 0 (10 - 0)) by lra.
  lra.
Defined.

Lemma twins_order : Nms.before [0.9; 0.8] 1 0 = false.
Proof.
  destruct (Nms.before [0.9; 0.8] 1 0) eqn:E; [|reflexivity].
  apply before_spec in E. cbn in E. destruct E as [E|[E _]]; lra.
Defined.

Lemma twins_nms : Nms.nms Sample.twins [0.9; 0.8] 0.5 = [0%nat].
Proof.
  unfold Nms.nms. cbn [length seq sort foldr insert_sorted].
  rewrite twins_order. simp greedy.
  rewrite filter_cons, twins_overlap.
  destruct (decide (true = false)) as [E|_]; [discriminate E|].
  rewrite filter_nil. by simp greedy.
Defined.

Lemma nms_greedy_witness :
  ∃ i, i ∈ Nms.nms Sample.twins [0.9; 0.8] 0.5
       ∧ ([0.9; 0.8] !!! i > [0.9; 0.8] !!! 1%nat
          ∨ ([0.9; 0.8] !!! i = [0.9; 0.8] !!! 1%nat ∧ (i <= 1)%nat))
       ∧ Nms.iou (Sample.twins !!! i) (Sample.twins !!! 1%nat) > 0.5.
Proof.
  apply (nms_greedy Sample.twins [0.9; 0.8] 0.5).
  - cbn. lia.
  - rewrite twins_nms. intros H. apply list_elem_of_singleton in H. lia.
Defined.

Lemma postprocess_empty_witness :
  postprocess Sample.prepared Sample.quiet_result = Returns (mkDetectionResult []).
Proof.
  apply (postprocess_empty Sample.prepared Sample.quiet_result
           Sample.quiet_scores Sample.zero_deltas).
  - reflexivity.
  - reflexivity.
  - intros k Hk. unfold candidates in Hk. cbn in Hk.
    unfold foreground.
    destruct k as [|[|k]]; [cbn; lra|cbn; lra|lia].
Defined.

Lemma output_roles_witness :
  ∃ m first second,
    prepareInputsOutputs Sample.faceboxes Sample.network = Returns m
    ∧ outputNames m = [first; second]
    ∧ String.leb first second = true.
Proof.
  eexists.
  destruct (output_roles [32; 64; 128]%Z [[32; 64; 128]; [256]; [512]]%Z
              [0.1; 0.2] 0.5 0.3 ["Face"] Sample.network _ eq_refl)
    as (first & second & Hnames & _ & _ & Hle & _).
  exists first, second. split; [reflexivity|]. split; [exact Hnames|exact Hle].
Defined.

Lemma setup_checks_witness :
  ∃ m', prepareInputsOutputs Sample.faceboxes Sample.network = Returns m'
        ∧ maxProposalsCount m' = 100%nat.
Proof.
  eexists. split; [reflexivity|].
  apply (setup_checks Sample.faceboxes Sample.network). reflexivity.
Defined.

Lemma super_resolution_planes_witness :
  SuperResolutionModel.resultImage
    (SuperResolutionModel.postprocess Sample.text_image)
  = [map (λ v, if Rgtb v 0.5 then 255%Z else 0%Z) [0.3; 0.7]].
Proof.
  apply (super_resolution_planes Sample.text_image). reflexivity.
Defined.

End Witnesses.

(** * Further properties of the FaceBoxes wrapper *)

(** ** The generated anchors *)

Section GeneratedAnchors.
Local Open Scope R_scope.
Import AnchorSpec.

Lemma sub_offsets_range (s : Z) (o : R) : o ∈ sub_offsets s → 0 <= o <= 0.75.
Proof.
  unfold sub_offsets.
  destruct (s =? 32)%Z; [|destruct (s =? 64)%Z]; intros Ho;
    repeat (apply elem_of_cons in Ho as [->|Ho]; [lra|]);
    by apply elem_of_nil in Ho.
Qed.

Lemma elem_of_cell (k : nat) (sizes : list Z) (step : Z) (row col : nat)
    (a : Anchor.t) :
  a ∈ cell k sizes step row col →
  ∃ s ox oy,
    a = centered ((INR col + ox) * IZR step) ((INR row + oy) * IZR step) (IZR s)
    ∧ 0 <= ox <= 0.75 ∧ 0 <= oy <= 0.75
    ∧ match k with O => s ∈ sizes | S _ => s = sizes !!! 0%nat end.
Proof.
  destruct k as [|k]; cbn [cell].
  - intros Ha.
    apply list_elem_of_bind in Ha as (s & Ha & Hs).
    apply list_elem_of_bind in Ha as (oy & Ha & Hoy).
    apply list_elem_of_bind in Ha as (ox & Ha & Hox).
    apply list_elem_of_singleton in Ha.
    exists s, ox, oy. split; [done|].
    split; [by eapply sub_offsets_range|]. split; [by eapply sub_offsets_range|done].
  - intros Ha. apply list_elem_of_singleton in Ha.
    exists (sizes !!! 0%nat), 0.5, 0.5. repeat split; (done || lra).
Qed.

Lemma elem_of_generate (inputWidth inputHeight : nat) (steps : list Z)
    (minSizes : list (list Z)) (a : Anchor.t) :
  a ∈ generate inputWidth inputHeight steps minSizes →
  ∃ k row col,
    (k < length steps)%nat
    ∧ (row < inputHeight / Z.to_nat (steps !!! k))%nat
    ∧ (col < inputWidth / Z.to_nat (steps !!! k))%nat
    ∧ a ∈ cell k (minSizes !!! k) (steps !!! k) row col.
Proof.
  unfold generate, level. intros Ha.
  apply list_elem_of_bind in Ha as (k & Ha & Hk).
  apply list_elem_of_bind in Ha as (row & Ha & Hrow).
  apply list_elem_of_bind in Ha as (col & Ha & Hcol).
  apply elem_of_seq in Hk, Hrow, Hcol.
  exists k, row, col. repeat split; (done || lia).
Qed.

(** A grid position scaled by the step stays inside the input. *)
Lemma grid_inside (size i : nat) (step : Z) (o : R) :
  (0 < step)%Z → (i < size / Z.to_nat step)%nat → 0 <= o <= 0.75 →
  0 <= (INR i + o) * IZR step < INR size.
Proof.
  intros Hstep Hi Ho.
  assert (Hd : INR (Z.to_nat step) = IZR step)
    by (rewrite INR_IZR_INZ, Z2Nat.id by lia; done).
  assert (Hs : 0 < IZR step) by (by apply IZR_lt).
  assert (Hle : ((i + 1) * Z.to_nat step <= size)%nat).
  { pose proof (Nat.Div0.mul_div_le size (Z.to_nat step)). nia. }
  apply le_INR in Hle. rewrite mult_INR, plus_INR, Hd in Hle.
  change (INR 1) with 1 in Hle.
  pose proof (pos_INR i). split; [nra|nra].
Qed.

Context (m : ModelFaceBoxes).
Hypothesis Hok : config_ok m = true.
Hypothesis Hfresh : anchors m = [].

Lemma elem_of_priorBoxes (a : Anchor.t) :
  a ∈ anchors (priorBoxes m (featureMapsOf m)) →
  ∃ k row col s ox oy,
    (k < length (steps m))%nat
    ∧ (row < netInputHeight m / Z.to_nat (steps m !!! k))%nat
    ∧ (col < netInputWidth m / Z.to_nat (steps m !!! k))%nat
    ∧ 0 <= ox <= 0.75 ∧ 0 <= oy <= 0.75
    ∧ match k with
      | O => s ∈ minSizes m !!! 0%nat
      | S _ => s = (minSizes m !!! k) !!! 0%nat
      end
    ∧ a = centered ((INR col + ox) * IZR (steps m !!! k))
                   ((INR row + oy) * IZR (steps m !!! k)) (IZR s).
Proof.
  rewrite priorBoxes_anchors, Hfresh by done. cbn [app]. intros Ha.
  apply elem_of_generate in Ha as (k & row & col & Hk & Hrow & Hcol & Ha).
  apply elem_of_cell in Ha as (s & ox & oy & -> & Hox & Hoy & Hs).
  exists k, row, col, s, ox, oy. by destruct k.
Qed.

(** X1: the number of anchors after setup: per level, rows times columns of
    the feature map, times the anchors of a cell (the sum of 16, 4 or 1 over
    the min-sizes on level 0, one on the later levels). *)
Theorem anchor_count :
  length (anchors (priorBoxes m (featureMapsOf m)))
  = sum_list ((λ k,
      (netInputHeight m / Z.to_nat (steps m !!! k)
       * (netInputWidth m / Z.to_nat (steps m !!! k)
          * match k with
            | O => sum_list (per_cell <$> minSizes m !!! k)
            | S _ => 1
            end))%nat) <$> seq 0 (length (steps m))).
Proof.
  rewrite priorBoxes_anchors, Hfresh by done. cbn [app].
  rewrite length_generate. f_equal.
  apply list_fmap_ext. intros _ k _. apply length_level.
Qed.

(** X2: every anchor is a square whose side is one of the min-sizes of
    level 0 or the first min-size of a later level. *)
Theorem anchors_square (a : Anchor.t) :
  a ∈ anchors (priorBoxes m (featureMapsOf m)) →
  ∃ s : Z,
    Anchor.right a - Anchor.left a = IZR s
    ∧ Anchor.bottom a - Anchor.top a = IZR s
    ∧ (s ∈ minSizes m !!! 0%nat
       ∨ ∃ k, (0 < k < length (steps m))%nat ∧ s = (minSizes m !!! k) !!! 0%nat).
Proof.
  intros Ha.
  apply elem_of_priorBoxes in Ha
    as (k & row & col & s & ox & oy & Hk & _ & _ & _ & _ & Hs & ->).
  exists s. unfold centered. cbn [Anchor.left Anchor.right Anchor.top Anchor.bottom].
  split; [lra|]. split; [lra|].
  destruct k as [|k]; [by left|]. right. exists (S k). split; [lia|done].
Qed.

(** X3: the center of every anchor lies inside the network input: at or
    after 0 and strictly before the input width (height). *)
Theorem anchors_centered_inside (a : Anchor.t) :
  a ∈ anchors (priorBoxes m (featureMapsOf m)) →
  0 <= (Anchor.left a + Anchor.right a) / 2 < INR (netInputWidth m)
  ∧ 0 <= (Anchor.top a + Anchor.bottom a) / 2 < INR (netInputHeight m).
Proof.
  intros Ha.
  apply elem_of_priorBoxes in Ha
    as (k & row & col & s & ox & oy & Hk & Hrow & Hcol & Hox & Hoy & _ & ->).
  pose proof (config_ok_step m k Hok Hk) as Hstep.
  pose proof (grid_inside _ _ _ ox (proj1 Hstep) Hcol Hox) as Hx.
  pose proof (grid_inside _ _ _ oy (proj1 Hstep) Hrow Hoy) as Hy.
  unfold centered. cbn [Anchor.left Anchor.right Anchor.top Anchor.bottom].
  split; lra.
Qed.

End GeneratedAnchors.

Section CalculateAnchors.
Local Open Scope R_scope.

(** X4: [calculateAnchors] leaves the anchors already in the vector in place
    and appends one square box of side [minSize] per pair of a [vy] and a [vx]
    value. *)
Theorem calculateAnchors_appends (acc : list Anchor.t) (vx vy : list R)
    (minSize step : Z) :
  ∃ new,
    calculateAnchors acc vx vy minSize step = acc ++ new
    ∧ length new = (length vy * length vx)%nat
    ∧ Forall (λ a, Anchor.right a - Anchor.left a = IZR minSize
                   ∧ Anchor.bottom a - Anchor.top a = IZR minSize) new.
Proof.
  eexists. split; [apply calculateAnchors_app|]. split.
  - apply length_bind_const. intros y.
    rewrite (length_bind_const _ _ 1%nat) by done. lia.
  - apply Forall_forall. intros a Ha.
    apply list_elem_of_bind in Ha as (y & Ha & _).
    apply list_elem_of_bind in Ha as (x & Ha & _).
    apply list_elem_of_singleton in Ha as ->.
    unfold AnchorSpec.centered.
    cbn [Anchor.left Anchor.right Anchor.top Anchor.bottom]. lra.
Qed.

End CalculateAnchors.

(** ** Score filter and box decoder *)

Section FilterFacts.
Local Open Scope R_scope.
Context {accessors : Anchor.Accessors}.

Lemma filterScores_pair (t : Tensor) (thr : R) :
  let kept :=
    List.filter (λ k, Rgtb (foreground t k) thr) (seq 0 (candidates t)) in
  filterScores t thr = (kept, map (foreground t) kept).
Proof.
  destruct (filterScores_spec t thr) as [H1 H2]. cbv zeta.
  destruct (filterScores t thr) as [indices scores]. cbn [fst snd] in *.
  by rewrite H2, H1.
Qed.

Lemma candidate_in_buffer (t : Tensor) (k : nat) :
  (k < candidates t)%nat →
  (2 * k + 1 < get_shape t !!! 1%nat * get_shape t !!! 2%nat)%nat.
Proof.
  unfold candidates. intros Hk.
  pose proof (Nat.Div0.mul_div_le
                (get_shape t !!! 1%nat * get_shape t !!! 2%nat) 2).
  lia.
Qed.

Lemma filterScores_indices_lt (t : Tensor) (thr : R) (k : nat) :
  k ∈ (filterScores t thr).1 → (k < candidates t)%nat.
Proof. intros Hk. by apply elem_of_filterScores in Hk as [Hk _]. Qed.

Lemma filterScores_scores_gt (t : Tensor) (thr : R) (s : R) :
  s ∈ (filterScores t thr).2 → s > thr.
Proof.
  rewrite filterScores_pair. cbn [snd]. intros Hs.
  apply list_elem_of_In, in_map_iff in Hs as (k & <- & Hk).
  apply filter_In in Hk as [_ Hk]. by apply Rgtb_true.
Qed.

(** X5: every score returned by the filter exceeds the threshold; every kept
    index is a candidate whose foreground position lies inside the
    shape[1]*shape[2] floats of the buffer; no index is kept twice, so at most
    [candidates] are kept. *)
Theorem filterScores_sound (t : Tensor) (thr : R) :
  Forall (λ s, s > thr) (filterScores t thr).2
  ∧ Forall (λ k, (k < candidates t)%nat
                 ∧ (2 * k + 1 < get_shape t !!! 1%nat * get_shape t !!! 2%nat)%nat)
      (filterScores t thr).1
  ∧ NoDup (filterScores t thr).1
  ∧ (length (filterScores t thr).1 <= candidates t)%nat.
Proof.
  rewrite filterScores_pair. cbn [fst snd]. repeat split.
  - apply Forall_forall. intros s Hs.
    apply list_elem_of_In, in_map_iff in Hs as (k & <- & Hk).
    apply filter_In in Hk as [_ Hk]. by apply Rgtb_true.
  - apply Forall_forall. intros k Hk.
    apply list_elem_of_In, filter_In in Hk as [Hk _].
    apply in_seq in Hk. split; [lia|]. apply candidate_in_buffer. lia.
  - apply NoDup_ListNoDup, List.NoDup_filter, List.seq_NoDup.
  - etrans; [apply List.filter_length_le|]. by rewrite length_seq.
Qed.

(** X6: the background scores (and a last float without partner) play no
    part: two tensors with the same number of floats per shape and the same
    foreground scores are filtered alike. *)
Theorem filterScores_foreground_only (t t' : Tensor) (thr : R) :
  (get_shape t !!! 1%nat * get_shape t !!! 2%nat
   = get_shape t' !!! 1%nat * get_shape t' !!! 2%nat)%nat →
  (∀ k, (k < candidates t)%nat → foreground t k = foreground t' k) →
  filterScores t thr = filterScores t' thr.
Proof.
  intros Hshape Hfg.
  assert (Hn : candidates t = candidates t') by (unfold candidates; by rewrite Hshape).
  rewrite !filterScores_pair. cbv zeta. rewrite <- Hn.
  assert (Hkept :
    List.filter (λ k, Rgtb (foreground t k) thr) (seq 0 (candidates t))
    = List.filter (λ k, Rgtb (foreground t' k) thr) (seq 0 (candidates t))).
  { apply filter_ext_in. intros k Hk. apply in_seq in Hk.
    rewrite Hfg by lia. done. }
  rewrite <- Hkept. f_equal.
  apply map_ext_in. intros k Hk. apply filter_In in Hk as [Hk _].
  apply in_seq in Hk. apply Hfg. lia.
Qed.

(** X7: when every foreground score exceeds the threshold, all candidates are
    kept, in order, with their scores. *)
Theorem filterScores_all (t : Tensor) (thr : R) :
  (∀ k, (k < candidates t)%nat → foreground t k > thr) →
  filterScores t thr
  = (seq 0 (candidates t), map (foreground t) (seq 0 (candidates t))).
Proof.
  intros Hall. rewrite filterScores_pair. cbv zeta.
  assert (Hkept :
    List.filter (λ k, Rgtb (foreground t k) thr) (seq 0 (candidates t))
    = seq 0 (candidates t)).
  { apply forallb_filter_id, forallb_forall. intros k Hk. apply in_seq in Hk.
    apply Rgtb_true, Hall. lia. }
  by rewrite Hkept.
Qed.

(** X8: decoding cannot turn a box inside out: when the anchor of an index
    has a non-negative width and height, the decoded box has left <= right
    and top <= bottom, whatever the deltas. *)
Theorem filterBoxes_wellformed (boxesTensor : Tensor) (anchors : list Anchor.t)
    (validIndices : list nat) (variance : list R) :
  (∀ i, i ∈ validIndices →
        0 <= Anchor.getWidth (anchors !!! i)
        ∧ 0 <= Anchor.getHeight (anchors !!! i)) →
  Forall (λ box, Anchor.left box <= Anchor.right box
                 ∧ Anchor.top box <= Anchor.bottom box)
    (filterBoxes boxesTensor anchors validIndices variance).
Proof.
  intros Hanchors. rewrite filterBoxes_map.
  apply Forall_forall. intros box Hbox.
  apply list_elem_of_In, in_map_iff in Hbox as (i & <- & Hi).
  apply list_elem_of_In, Hanchors in Hi as [Hw Hh].
  unfold decodeBox. cbn [Anchor.left Anchor.right Anchor.top Anchor.bottom].
  set (dw := data boxesTensor !!! (get_shape boxesTensor !!! 2%nat * i + 2)%nat).
  set (dh := data boxesTensor !!! (get_shape boxesTensor !!! 2%nat * i + 3)%nat).
  pose proof (exp_pos (dw * variance !!! 1%nat)).
  pose proof (exp_pos (dh * variance !!! 1%nat)).
  split; nra.
Qed.

(** X9: when the two tensors and the anchor list hold one entry per
    candidate (two scores, four deltas, one anchor), every index that the
    score filter hands to the box decoder stays in range: its foreground
    score, its four deltas and its anchor all exist. *)
Theorem filtered_indices_in_range (scoresTensor boxesTensor : Tensor)
    (anchors : list Anchor.t) (thr : R) (n : nat) :
  get_shape scoresTensor !!! 1%nat = n →
  get_shape scoresTensor !!! 2%nat = 2%nat →
  length (data scoresTensor) = (n * 2)%nat →
  get_shape boxesTensor !!! 2%nat = 4%nat →
  length (data boxesTensor) = (n * 4)%nat →
  length anchors = n →
  Forall (λ i, (2 * i + 1 < length (data scoresTensor))%nat
               ∧ (get_shape boxesTensor !!! 2%nat * i + 3
                  < length (data boxesTensor))%nat
               ∧ (i < length anchors)%nat)
    (filterScores scoresTensor thr).1.
Proof.
  intros Hs1 Hs2 Hsd Hb2 Hbd Ha.
  apply Forall_forall. intros i Hi.
  apply filterScores_indices_lt in Hi.
  unfold candidates in Hi. rewrite Hs1, Hs2, Nat.div_mul in Hi by done.
  rewrite Hsd, Hbd, Hb2, Ha. lia.
Qed.

End FilterFacts.

(** ** Post-processing as a whole *)

Section PostprocessFacts.
Local Open Scope R_scope.
Context {accessors : Anchor.Accessors}.

Lemma nms_in_range (boxes : list Anchor.t) (scores : list R) (thresh : R) (i : nat) :
  i ∈ Nms.nms boxes scores thresh → (i < length scores)%nat.
Proof.
  intros Hi. unfold Nms.nms in Hi.
  eapply sublist_subseteq in Hi; [|apply greedy_sublist].
  rewrite sort_Permutation in Hi. apply elem_of_seq in Hi. lia.
Qed.

Lemma nms_length (boxes : list Anchor.t) (scores : list R) (thresh : R) :
  (length (Nms.nms boxes scores thresh) <= length scores)%nat.
Proof.
  unfold Nms.nms.
  etrans; [apply sublist_length, greedy_sublist|].
  by rewrite sort_Permutation, length_seq.
Qed.

(** X11: FaceBoxes is a single-class detector: every detection carries
    label id 0 and the first configured label. *)
Theorem detections_labelled (m : ModelFaceBoxes) (infResult : InferenceResult)
    (result : DetectionResult) :
  postprocess m infResult = Returns result →
  Forall (λ d, labelID d = 0%Z ∧ label d = labels m !!! 0%nat) (objects result).
Proof.
  intros Hres.
  destruct (postprocess_inv _ _ _ Hres) as (st & bt & Hs & Hb).
  rewrite (postprocess_returns m infResult st bt Hs Hb) in Hres.
  injection Hres as <-. unfold detections. cbn [objects].
  apply Forall_forall. intros d Hd.
  apply list_elem_of_In, in_map_iff in Hd as (i & <- & _). done.
Qed.

(** X12: with the suppression step as the specification describes it, every
    detection has a confidence above the confidence threshold, and there are
    at most as many detections as candidates that passed the score filter. *)
Theorem detections_confident (m : ModelFaceBoxes) (infResult : InferenceResult)
    (scoresTensor : Tensor) (result : DetectionResult) :
  outputsData infResult !! (outputNames m !!! 1%nat) = Some scoresTensor →
  postprocess m infResult = Returns result →
  Forall (λ d, confidence d > confidence_threshold m) (objects result)
  ∧ (length (objects result)
     <= length (filterScores scoresTensor (confidence_threshold m)).1)%nat.
Proof.
  intros Hs Hres.
  destruct (postprocess_inv _ _ _ Hres) as (st & bt & Hs' & Hb).
  rewrite Hs in Hs'. injection Hs' as <-.
  rewrite (postprocess_returns m infResult scoresTensor bt Hs Hb) in Hres.
  injection Hres as <-. unfold detections. cbn [objects].
  set (scores := filterScores scoresTensor (confidence_threshold m)).
  assert (Hlen : length scores.2 = length scores.1).
  { subst scores. rewrite (proj2 (filterScores_spec _ _)). apply length_map. }
  split.
  - apply Forall_forall. intros d Hd.
    apply list_elem_of_In, in_map_iff in Hd as (i & <- & Hi).
    apply list_elem_of_In, nms_in_range in Hi.
    cbn [confidence describe].
    apply (filterScores_scores_gt scoresTensor).
    apply list_elem_of_lookup_total_2. exact Hi.
  - rewrite length_map, <- Hlen. apply nms_length.
Qed.

End PostprocessFacts.

(** ** Setup of the FaceBoxes wrapper *)

Section SetupFacts.

(** X13: the checks of [prepareInputsOutputs] in the order they are made: a
    model without exactly one input is refused whatever else holds; with one
    input, a channel count other than 3 is refused whatever the outputs are;
    with a 3-channel input, a number of outputs other than 2 is refused. *)
Theorem prepareInputsOutputs_errors (m : ModelFaceBoxes) (model : OvModel) :
  (length (inputs model) ≠ 1%nat →
   prepareInputsOutputs m model
   = Throws (logic_error
       "FaceBoxes model wrapper expects models that have only 1 input"))
  ∧ (∀ input c,
       inputs model = [input] →
       channels_idx (getInputLayout input) = Returns c →
       port_shape input !!! c ≠ 3%nat →
       prepareInputsOutputs m model
       = Throws (logic_error "Expected 3-channel input"))
  ∧ (∀ input c w h,
       inputs model = [input] →
       channels_idx (getInputLayout input) = Returns c →
       port_shape input !!! c = 3%nat →
       width_idx (getInputLayout input) = Returns w →
       height_idx (getInputLayout input) = Returns h →
       length (outputs model) ≠ 2%nat →
       prepareInputsOutputs m model
       = Throws (logic_error
           "FaceBoxes model wrapper expects models that have 2 outputs")).
Proof.
  unfold prepareInputsOutputs. repeat split.
  - intros Hin. apply Nat.eqb_neq in Hin. by rewrite Hin.
  - intros input c Hin Hc H3. rewrite Hin. cbn [length Nat.eqb negb].
    change ([input] !!! 0%nat) with input. rewrite Hc.
    cbn [mbind outcome_bind]. apply Nat.eqb_neq in H3. by rewrite H3.
  - intros input c w h Hin Hc H3 Hw Hh Hout. rewrite Hin.
    cbn [length Nat.eqb negb].
    change ([input] !!! 0%nat) with input. rewrite Hc.
    cbn [mbind outcome_bind]. rewrite H3. cbn [Nat.eqb negb].
    rewrite Hw. cbn [mbind outcome_bind]. rewrite Hh. cbn [mbind outcome_bind].
    apply Nat.eqb_neq in Hout. by rewrite Hout.
Qed.

(** X14: setup reads the input through its layout only: two inputs of the
    same name whose layouts place equal channel, width and height dimensions
    at possibly different positions (NCHW and NHWC, say) lead to the same
    result. *)
Theorem prepareInputsOutputs_layout (m : ModelFaceBoxes) (input input' : Port)
    (outs : list Port) (c w h c' w' h' : nat) :
  get_any_name input = get_any_name input' →
  channels_idx (getInputLayout input) = Returns c →
  width_idx (getInputLayout input) = Returns w →
  height_idx (getInputLayout input) = Returns h →
  channels_idx (getInputLayout input') = Returns c' →
  width_idx (getInputLayout input') = Returns w' →
  height_idx (getInputLayout input') = Returns h' →
  port_shape input !!! c = port_shape input' !!! c' →
  port_shape input !!! w = port_shape input' !!! w' →
  port_shape input !!! h = port_shape input' !!! h' →
  prepareInputsOutputs m (mkOvModel [input] outs)
  = prepareInputsOutputs m (mkOvModel [input'] outs).
Proof.
  intros Hname Hc Hw Hh Hc' Hw' Hh' Hsc Hsw Hsh.
  unfold prepareInputsOutputs. cbn [inputs outputs length Nat.eqb negb].
  change ([input] !!! 0%nat) with input.
  change ([input'] !!! 0%nat) with input'.
  rewrite Hc, Hc', Hw, Hw', Hh, Hh'. cbn [mbind outcome_bind].
  by rewrite Hname, Hsc, Hsw, Hsh.
Qed.

(** X15: a successful setup leaves the configuration of the model object
    (steps, min-sizes, variance, thresholds, labels) as it was, appends the
    name of the input to the input names, and takes the network input size
    from the W and H dimensions of the input shape. *)
Theorem prepareInputsOutputs_keeps_configuration (m m' : ModelFaceBoxes)
    (model : OvModel) :
  prepareInputsOutputs m model = Returns m' →
  steps m' = steps m ∧ minSizes m' = minSizes m ∧ variance m' = variance m
  ∧ confidence_threshold m' = confidence_threshold m
  ∧ iou_threshold m' = iou_threshold m ∧ labels m' = labels m
  ∧ ∃ input w h,
      inputs model = [input]
      ∧ width_idx (getInputLayout input) = Returns w
      ∧ height_idx (getInputLayout input) = Returns h
      ∧ inputNames m' = inputNames m ++ [get_any_name input]
      ∧ netInputWidth m' = port_shape input !!! w
      ∧ netInputHeight m' = port_shape input !!! h.
Proof.
  intros Hsetup.
  destruct (prepareInputsOutputs_inv _ _ _ Hsetup)
    as (input & out0 & out1 & c & w & h & Hin & Hc & H3 & Hw & Hh & Hout).
  rewrite (prepareInputsOutputs_returns _ _ input out0 out1 c w h) in Hsetup
    by done.
  injection Hsetup as <-. do 6 (split; [done|]).
  exists input, w, h. done.
Qed.

End SetupFacts.

(** * Further properties of the super-resolution wrapper *)

Section SuperResolutionFacts.
Local Open Scope R_scope.
Import SuperResolutionModel.

Lemma Int_part_bounds (v : R) : IZR (Int_part v) <= v < IZR (Int_part v) + 1.
Proof. destruct (base_Int_part v). lra. Qed.

Lemma Int_part_mono (v v' : R) : v <= v' → (Int_part v <= Int_part v')%Z.
Proof.
  intros Hle.
  pose proof (Int_part_bounds v). pose proof (Int_part_bounds v').
  assert (Hlt : IZR (Int_part v) < IZR (Int_part v' + 1))
    by (rewrite plus_IZR; lra).
  apply lt_IZR in Hlt. lia.
Qed.

Lemma cvRound_floor (v : R) :
  (Int_part v <= cvRound v <= Int_part v + 1)%Z.
Proof.
  unfold cvRound, Rltb, Rgtb.
  destruct (Rlt_dec _ _); [lia|]. destruct (Rgt_dec _ _); [lia|].
  destruct (Z.even _); lia.
Qed.

Lemma cvRound_mono (v v' : R) : v <= v' → (cvRound v <= cvRound v')%Z.
Proof.
  intros Hle. pose proof (Int_part_mono v v' Hle) as Hf.
  destruct (decide (Int_part v = Int_part v')) as [Heq|Hne].
  - unfold cvRound, Rltb, Rgtb. rewrite <- Heq.
    repeat match goal with
           | |- context [Rlt_dec ?a ?b] => destruct (Rlt_dec a b)
           | |- context [Rgt_dec ?a ?b] => destruct (Rgt_dec a b)
           end;
      try destruct (Z.even (Int_part v)); (lia || lra).
  - pose proof (cvRound_floor v). pose proof (cvRound_floor v'). lia.
Qed.

Lemma saturate_range (z : Z) : (0 <= saturate_cast_uchar z <= 255)%Z.
Proof. unfold saturate_cast_uchar. lia. Qed.

Lemma saturate_mono (z z' : Z) :
  (z <= z')%Z → (saturate_cast_uchar z <= saturate_cast_uchar z')%Z.
Proof. unfold saturate_cast_uchar. lia. Qed.

Lemma pixel_of_byte (p : Z) :
  (0 <= p <= 255)%Z → saturate_cast_uchar (cvRound (IZR p / 255 * 255)) = p.
Proof.
  intros Hp. replace (IZR p / 255 * 255) with (IZR p) by (field; lra).
  rewrite cvRound_IZR. unfold saturate_cast_uchar. lia.
Qed.

Lemma postprocess_planes (outTensor : Tensor) :
  let n := (get_shape outTensor !!! 3%nat * get_shape outTensor !!! 2%nat)%nat in
  resultImage (postprocess outTensor)
  = if (get_shape outTensor !!! 1%nat =? 3)%nat then
      [convertTo_8UC1 (Mat (data outTensor) 0 n) 255;
       convertTo_8UC1 (Mat (data outTensor) n n) 255;
       convertTo_8UC1 (Mat (data outTensor) (n * 2) n) 255]
    else [map (λ v, if Rgtb v 0.5 then 255%Z else 0%Z) (Mat (data outTensor) 0 n)].
Proof.
  intros n. unfold postprocess. fold n.
  destruct (get_shape outTensor !!! 1%nat =? 3)%nat; [done|].
  cbn [map resultImage]. f_equal.
  unfold convertTo_8UC1, threshold_binary. rewrite map_map.
  apply map_ext. intros v. apply binary_pixel.
Qed.

(** X16: any number of output channels other than 3 (not only 1) is treated
    as a text image: the result has a single plane, made from the first
    height*width floats alone, with 255 where the value exceeds 0.5 and 0
    elsewhere. *)
Theorem postprocess_not_three_channels (outTensor : Tensor) :
  get_shape outTensor !!! 1%nat ≠ 3%nat →
  resultImage (postprocess outTensor)
  = [map (λ v, if Rgtb v 0.5 then 255%Z else 0%Z)
       (take (get_shape outTensor !!! 3%nat * get_shape outTensor !!! 2%nat)
             (data outTensor))].
Proof.
  intros Hc. rewrite postprocess_planes. cbv zeta.
  apply Nat.eqb_neq in Hc. by rewrite Hc.
Qed.

(** X17: the result has three planes for a 3-channel output and one plane
    otherwise; every pixel is an 8-bit value; when the buffer holds
    channels*height*width floats (and at least one channel), every plane has
    height*width pixels. *)
Theorem postprocess_image (outTensor : Tensor) :
  let channels := get_shape outTensor !!! 1%nat in
  let n := (get_shape outTensor !!! 3%nat * get_shape outTensor !!! 2%nat)%nat in
  length (resultImage (postprocess outTensor))
  = (if (channels =? 3)%nat then 3 else 1)%nat
  ∧ Forall (Forall (λ p, (0 <= p <= 255)%Z)) (resultImage (postprocess outTensor))
  ∧ ((0 < channels)%nat → length (data outTensor) = (channels * n)%nat →
     Forall (λ plane, length plane = n) (resultImage (postprocess outTensor))).
Proof.
  intros channels n. rewrite postprocess_planes. fold channels n. cbv zeta.
  split; [by destruct (channels =? 3)%nat|]. split.
  - destruct (channels =? 3)%nat; repeat constructor.
    1-3: apply Forall_forall; intros p Hp;
      apply list_elem_of_In, in_map_iff in Hp as (v & <- & _);
      apply saturate_range.
    apply Forall_forall. intros p Hp.
    apply list_elem_of_In, in_map_iff in Hp as (v & <- & _).
    destruct (Rgtb v 0.5); lia.
  - intros Hpos Hlen.
    destruct (channels =? 3)%nat eqn:Hc.
    + apply Nat.eqb_eq in Hc. rewrite Hc in Hlen.
      unfold convertTo_8UC1, Mat.
      repeat constructor; rewrite length_map, length_take, length_drop; lia.
    + unfold Mat. repeat constructor.
      rewrite length_map, length_take, length_drop. nia.
Qed.

(** X18: an 8-bit image stored as floats [p / 255], three planes of
    height*width values, comes back unchanged. *)
Theorem postprocess_round_trip (outTensor : Tensor) (bytes : list Z) :
  let n := (get_shape outTensor !!! 3%nat * get_shape outTensor !!! 2%nat)%nat in
  get_shape outTensor !!! 1%nat = 3%nat →
  data outTensor = map (λ p, IZR p / 255) bytes →
  Forall (λ p, (0 <= p <= 255)%Z) bytes →
  resultImage (postprocess outTensor)
  = [take n bytes; take n (drop n bytes); take n (drop (n * 2) bytes)].
Proof.
  intros n Hc Hdata Hbytes. rewrite postprocess_planes. fold n. cbv zeta.
  rewrite Hc, Hdata. cbn [Nat.eqb].
  assert (Hplane : ∀ off,
    convertTo_8UC1 (Mat (map (λ p, IZR p / 255) bytes) off n) 255
    = take n (drop off bytes)).
  { intros off. unfold convertTo_8UC1, Mat.
    change (map ?f ?l) with (f <$> l).
    rewrite <- fmap_drop, <- fmap_take, <- list_fmap_compose.
    rewrite <- (list_fmap_id (take n (drop off bytes))) at 2.
    apply list_fmap_ext. intros i p Hp. cbn.
    apply pixel_of_byte.
    apply list_elem_of_lookup_2 in Hp.
    eapply sublist_subseteq in Hp; [|apply sublist_take].
    eapply sublist_subseteq in Hp; [|apply sublist_drop].
    rewrite Forall_forall in Hbytes. by apply Hbytes. }
  by rewrite !Hplane.
Qed.

(** X19: the conversion to 8 bits of a 3-channel output is monotone and
    saturating: each pixel is the rounded, clipped value of 255 times the
    float; a larger float never gives a smaller pixel; floats of 1 or more
    give 255 and floats of 0 or less give 0. *)
Theorem postprocess_saturates :
  let pixel v := saturate_cast_uchar (cvRound (v * 255)) in
  (∀ outTensor,
     get_shape outTensor !!! 1%nat = 3%nat →
     let n := (get_shape outTensor !!! 3%nat * get_shape outTensor !!! 2%nat)%nat in
     resultImage (postprocess outTensor)
     = map (map pixel) [Mat (data outTensor) 0 n; Mat (data outTensor) n n;
                        Mat (data outTensor) (n * 2) n])
  ∧ (∀ v v', v <= v' → (pixel v <= pixel v')%Z)
  ∧ (∀ v, 1 <= v → pixel v = 255%Z)
  ∧ (∀ v, v <= 0 → pixel v = 0%Z).
Proof.
  intros pixel. repeat split.
  - intros outTensor Hc n. rewrite postprocess_planes. fold n. cbv zeta.
    by rewrite Hc.
  - intros v v' Hle. apply saturate_mono, cvRound_mono. lra.
  - intros v Hv. subst pixel. cbv beta.
    assert (Hr : 255 <= v * 255) by lra.
    apply cvRound_mono in Hr. rewrite cvRound_IZR in Hr.
    unfold saturate_cast_uchar. lia.
  - intros v Hv. subst pixel. cbv beta.
    assert (Hr : v * 255 <= 0) by lra.
    apply cvRound_mono in Hr. rewrite cvRound_IZR in Hr.
    unfold saturate_cast_uchar. lia.
Qed.

End SuperResolutionFacts.

(** ** Setup of the super-resolution wrapper *)

Section SuperResolutionSetup.
Import SuperResolution.

Lemma get_index_by_name_substring (layout dim : string) (i : nat) :
  get_index_by_name layout dim = Returns i →
  String.substring i (String.length dim) layout = dim.
Proof.
  unfold get_index_by_name.
  destruct (String.index 0 dim layout) as [j|] eqn:Hj; [|done].
  intros [= <-]. by apply String.index_correct1 in Hj.
Qed.

(** The batch, height and width dimensions of a layout sit at three
    different positions. *)
Lemma layout_positions_distinct (layout : string) (b h w : nat) :
  batch_idx layout = Returns b →
  height_idx layout = Returns h →
  width_idx layout = Returns w →
  b ≠ h ∧ b ≠ w ∧ h ≠ w.
Proof.
  intros Hb Hh Hw.
  apply get_index_by_name_substring in Hb, Hh, Hw.
  cbn [String.length] in Hb, Hh, Hw.
  repeat split; intros ->; congruence.
Qed.

(** The shape requested for an input: batch 1 and the given height and
    width, the other dimensions as they are. *)
Lemma resized_shape (shape : list nat) (b h w height width : nat) :
  b ≠ h → b ≠ w → h ≠ w →
  (b < length shape)%nat → (h < length shape)%nat → (w < length shape)%nat →
  let shape' := <[w := width]> (<[h := height]> (<[b := 1%nat]> shape)) in
  length shape' = length shape
  ∧ shape' !!! b = 1%nat ∧ shape' !!! h = height ∧ shape' !!! w = width
  ∧ ∀ i, i ≠ b → i ≠ h → i ≠ w → shape' !!! i = shape !!! i.
Proof.
  intros Hbh Hbw Hhw Hb Hh Hw shape'. subst shape'.
  rewrite !length_insert. repeat split.
  - rewrite !list_lookup_total_insert_ne by done.
    by rewrite list_lookup_total_insert_eq.
  - rewrite list_lookup_total_insert_ne by done.
    by rewrite list_lookup_total_insert_eq by (by rewrite length_insert).
  - by rewrite list_lookup_total_insert_eq by (by rewrite !length_insert).
  - intros i ? ? ?. by rewrite !list_lookup_total_insert_ne.
Qed.

(** X20: for a single input, [changeInputSize] requests exactly one shape,
    under the name of that input: batch 1, the network input height and
    width, every other dimension (the channels) as the model has it. *)
Theorem changeInputSize_one_input (m : SuperResolution.t) (layout : string)
    (input : Port) (coeff : Z) (b h w : nat) :
  batch_idx layout = Returns b →
  height_idx layout = Returns h →
  width_idx layout = Returns w →
  (b < length (port_shape input))%nat →
  (h < length (port_shape input))%nat →
  (w < length (port_shape input))%nat →
  ∃ shape',
    changeInputSize m layout [input] coeff
    = Returns {[ get_any_name input := shape' ]}
    ∧ length shape' = length (port_shape input)
    ∧ shape' !!! b = 1%nat
    ∧ shape' !!! h = netInputHeight m
    ∧ shape' !!! w = netInputWidth m
    ∧ ∀ i, i ≠ b → i ≠ h → i ≠ w → shape' !!! i = port_shape input !!! i.
Proof.
  intros Hb Hh Hw Hbl Hhl Hwl.
  destruct (layout_positions_distinct layout b h w Hb Hh Hw) as (Hbh & Hbw & Hhw).
  eexists. split.
  - unfold changeInputSize. rewrite Hb, Hh, Hw.
    cbn [mbind outcome_bind mret outcome_ret length Nat.eqb].
    change ([input] !!! 0%nat) with input. reflexivity.
  - by apply resized_shape.
Qed.

Lemma size_t_mul_small (coeff : Z) (n : nat) :
  (0 <= coeff)%Z → (coeff * Z.of_nat n < 2 ^ 64)%Z →
  size_t_mul (size_t_of_int coeff) n = (Z.to_nat coeff * n)%nat.
Proof.
  intros Hpos Hsmall. unfold size_t_mul, size_t_of_int.
  destruct (decide (n = 0%nat)) as [->|Hn].
  - rewrite Z.mul_0_r, Z.mod_0_l by lia. lia.
  - assert (coeff < 2 ^ 64)%Z by nia.
    rewrite (Z.mod_small coeff) by lia.
    rewrite Z2Nat.id by lia. rewrite Z.mod_small by lia. lia.
Qed.

(** X21: for two inputs with different names, [changeInputSize] requests
    two shapes: the input that is not larger than the other in height and
    width gets the network input size, the other one that size times the
    coefficient, a product of 64-bit [size_t] values that wraps around (and is
    the plain product when the coefficient is not negative and the product
    fits); both get batch 1. *)
Theorem changeInputSize_two_inputs (m : SuperResolution.t) (layout : string)
    (first second : Port) (coeff : Z) (b h w : nat) :
  batch_idx layout = Returns b →
  height_idx layout = Returns h →
  width_idx layout = Returns w →
  (b < length (port_shape first))%nat → (b < length (port_shape second))%nat →
  (h < length (port_shape first))%nat → (h < length (port_shape second))%nat →
  (w < length (port_shape first))%nat → (w < length (port_shape second))%nat →
  get_any_name first ≠ get_any_name second →
  ∃ shapes lr bic lrShape bicShape,
    changeInputSize m layout [first; second] coeff = Returns shapes
    ∧ ((lr, bic) = (first, second) ∨ (lr, bic) = (second, first))
    ∧ ((lr, bic) = (second, first)
       ↔ (port_shape second !!! h <= port_shape first !!! h)%nat
         ∧ (port_shape second !!! w <= port_shape first !!! w)%nat)
    ∧ dom shapes = {[ get_any_name first; get_any_name second ]}
    ∧ shapes !! get_any_name lr = Some lrShape
    ∧ shapes !! get_any_name bic = Some bicShape
    ∧ lrShape !!! b = 1%nat
    ∧ lrShape !!! h = netInputHeight m
    ∧ lrShape !!! w = netInputWidth m
    ∧ bicShape !!! b = 1%nat
    ∧ bicShape !!! h = size_t_mul (size_t_of_int coeff) (netInputHeight m)
    ∧ bicShape !!! w = size_t_mul (size_t_of_int coeff) (netInputWidth m)
    ∧ ((0 <= coeff)%Z →
       (coeff * Z.of_nat (netInputHeight m) < 2 ^ 64)%Z →
       (coeff * Z.of_nat (netInputWidth m) < 2 ^ 64)%Z →
       bicShape !!! h = (Z.to_nat coeff * netInputHeight m)%nat
       ∧ bicShape !!! w = (Z.to_nat coeff * netInputWidth m)%nat).
Proof.
  intros Hb Hh Hw Hb1 Hb2 Hh1 Hh2 Hw1 Hw2 Hne.
  destruct (layout_positions_distinct layout b h w Hb Hh Hw) as (Hbh & Hbw & Hhw).
  unfold changeInputSize. rewrite Hb, Hh, Hw.
  cbn [mbind outcome_bind mret outcome_ret length Nat.eqb].
  change ([first; second] !!! 0%nat) with first.
  change ([first; second] !!! 1%nat) with second.
  destruct ((port_shape second !!! h <=? port_shape first !!! h)%nat
            && (port_shape second !!! w <=? port_shape first !!! w)%nat) eqn:Hcmp.
  - apply andb_true_iff in Hcmp as [H1 H2].
    apply Nat.leb_le in H1, H2.
    eexists _, second, first, _, _. split; [reflexivity|].
    split; [by right|]. split; [done|].
    split; [rewrite !dom_insert_L, dom_empty_L; apply set_eq; intros x; rewrite !elem_of_union, !elem_of_singleton, elem_of_empty; tauto|].
    split; [apply lookup_insert_eq|].
    split; [by rewrite lookup_insert_ne, lookup_insert_eq by done|].
    pose proof (resized_shape (port_shape second) b h w (netInputHeight m)
                  (netInputWidth m) Hbh Hbw Hhw Hb2 Hh2 Hw2) as (_ & ? & ? & ? & _).
    pose proof (resized_shape (port_shape first) b h w
                  (size_t_mul (size_t_of_int coeff) (netInputHeight m))
                  (size_t_mul (size_t_of_int coeff) (netInputWidth m))
                  Hbh Hbw Hhw Hb1 Hh1 Hw1) as (_ & ? & ? & ? & _).
    do 6 (split; [done|]). intros Hpos Hsh Hsw.
    by rewrite <- !size_t_mul_small by done.
  - eexists _, first, second, _, _. split; [reflexivity|].
    split; [by left|]. split.
    { split.
      - intros [= Heq _]. by rewrite Heq in Hne.
      - intros [H1 H2]. apply Nat.leb_le in H1, H2.
        rewrite H1, H2 in Hcmp. done. }
    split; [rewrite !dom_insert_L, dom_empty_L; apply set_eq; intros x; rewrite !elem_of_union, !elem_of_singleton, elem_of_empty; tauto|].
    split; [apply lookup_insert_eq|].
    split; [by rewrite lookup_insert_ne, lookup_insert_eq by done|].
    pose proof (resized_shape (port_shape first) b h w (netInputHeight m)
                  (netInputWidth m) Hbh Hbw Hhw Hb1 Hh1 Hw1) as (_ & ? & ? & ? & _).
    pose proof (resized_shape (port_shape second) b h w
                  (size_t_mul (size_t_of_int coeff) (netInputHeight m))
                  (size_t_mul (size_t_of_int coeff) (netInputWidth m))
                  Hbh Hbw Hhw Hb2 Hh2 Hw2) as (_ & ? & ? & ? & _).
    do 6 (split; [done|]). intros Hpos Hsh Hsw.
    by rewrite <- !size_t_mul_small by done.
Qed.

End SuperResolutionSetup.

Section SuperResolutionPrepare.
Import SuperResolution.
Context (build : OvModel → OvModel) (get_layout : Port → string).

Lemma secondInput_inv (inputs : list Port) (heightId widthId : nat)
    (inputNames names' : list string) (lrShape shape' : list nat) :
  secondInput inputs heightId widthId inputNames lrShape = Returns (names', shape') →
  let bicShape := port_shape (inputs !!! 1%nat) in
  let names := inputNames ++ [get_any_name (inputs !!! 1%nat)] in
  length bicShape = 4%nat
  ∧ (((bicShape !!! widthId <= lrShape !!! widthId)%nat
      ∧ (bicShape !!! heightId <= lrShape !!! heightId)%nat
      ∧ names' = swap_at 0 1 names ∧ shape' = bicShape)
     ∨ (¬ ((bicShape !!! widthId <= lrShape !!! widthId)%nat
           ∧ (bicShape !!! heightId <= lrShape !!! heightId)%nat)
        ∧ (lrShape !!! widthId <= bicShape !!! widthId)%nat
        ∧ (lrShape !!! heightId <= bicShape !!! heightId)%nat
        ∧ names' = names ∧ shape' = lrShape)).
Proof.
  intros Hret. cbv zeta. revert Hret.
  unfold secondInput, push_back. cbv zeta.
  set (bicShape := port_shape (inputs !!! 1%nat)).
  set (names := inputNames ++ [get_any_name (inputs !!! 1%nat)]).
  intros Hret.
  destruct (length bicShape =? 4)%nat eqn:Hrank; cbn [negb] in Hret; [|done].
  apply Nat.eqb_eq in Hrank. split; [done|].
  destruct ((bicShape !!! widthId <=? lrShape !!! widthId)%nat
            && (bicShape !!! heightId <=? lrShape !!! heightId)%nat) eqn:Hge.
  - apply andb_true_iff in Hge as [H1 H2]. apply Nat.leb_le in H1, H2.
    injection Hret as <- <-. by left.
  - destruct ((lrShape !!! widthId <=? bicShape !!! widthId)%nat
              && (lrShape !!! heightId <=? bicShape !!! heightId)%nat) eqn:Hle;
      cbn [negb] in Hret; [|done].
    apply andb_true_iff in Hle as [H1 H2]. apply Nat.leb_le in H1, H2.
    injection Hret as <- <-. right.
    split; [|done]. intros [H3 H4]. apply Nat.leb_le in H3, H4.
    rewrite H3, H4 in Hge. done.
Qed.

(** What a successful [prepareInputsOutputs] has checked and stored. *)
Lemma prepareInputsOutputs_SR_inv (m m' : SuperResolution.t) (model : OvModel)
    (shapes : gmap string (list nat)) :
  prepareInputsOutputs build get_layout m model = Returns (m', shapes) →
  ∃ c h w names' shape',
    (length (inputs model) = 1%nat ∨ length (inputs model) = 2%nat)
    ∧ length (port_shape (inputs model !!! 0%nat)) = 4%nat
    ∧ channels_idx (getInputLayout (inputs model !!! 0%nat)) = Returns c
    ∧ height_idx (getInputLayout (inputs model !!! 0%nat)) = Returns h
    ∧ width_idx (getInputLayout (inputs model !!! 0%nat)) = Returns w
    ∧ (port_shape (inputs model !!! 0%nat) !!! c = 1%nat
       ∨ port_shape (inputs model !!! 0%nat) !!! c = 3%nat)
    ∧ (if (length (inputs model) =? 2)%nat
       then secondInput (inputs model) h w
              (inputNames m ++ [get_any_name (inputs model !!! 0%nat)])
              (port_shape (inputs model !!! 0%nat))
       else Returns (inputNames m ++ [get_any_name (inputs model !!! 0%nat)],
                     port_shape (inputs model !!! 0%nat)))
      = Returns (names', shape')
    ∧ length (outputs model) = 1%nat
    ∧ m' = SuperResolution.mk names'
             (outputNames m ++ [get_any_name (outputs model !!! 0%nat)])
             (netInputWidth m) (netInputHeight m).
Proof.
  unfold prepareInputsOutputs, model_inputs, model_outputs, push_back.
  intros Hret.
  destruct (negb (length (inputs model) =? 1)%nat
            && negb (length (inputs model) =? 2)%nat) eqn:Hcount; [done|].
  destruct (length (port_shape (inputs model !!! 0%nat)) =? 4)%nat eqn:Hrank;
    cbn [negb] in Hret; [|done].
  destruct (channels_idx (getInputLayout (inputs model !!! 0%nat)))
    as [c|] eqn:Hc; cbn [mbind outcome_bind] in Hret; [|done].
  destruct (height_idx (getInputLayout (inputs model !!! 0%nat)))
    as [h|] eqn:Hh; cbn [mbind outcome_bind] in Hret; [|done].
  destruct (width_idx (getInputLayout (inputs model !!! 0%nat)))
    as [w|] eqn:Hw; cbn [mbind outcome_bind] in Hret; [|done].
  destruct (negb (port_shape (inputs model !!! 0%nat) !!! c =? 1)%nat
            && negb (port_shape (inputs model !!! 0%nat) !!! c =? 3)%nat)
    eqn:Hchan; cbn [negb andb] in Hret; [done|].
  match type of Hret with
  | mbind _ ?second = _ => destruct second as [[names' shape']|] eqn:Hsecond
  end; cbn [mbind outcome_bind] in Hret; [|done].
  destruct (length (outputs model) =? 1)%nat eqn:Hout; cbn [negb] in Hret; [|done].
  change (width_idx "NCHW") with (Returns (A := nat) 3%nat) in Hret.
  cbn [mbind outcome_bind] in Hret.
  match type of Hret with
  | mbind _ ?change = _ => destruct change as [shapes'|] eqn:Hchange
  end; cbn [mbind outcome_bind mret outcome_ret] in Hret; [|done].
  injection Hret as <- <-.
  exists c, h, w, names', shape'.
  apply Nat.eqb_eq in Hrank, Hout.
  apply andb_false_iff in Hcount, Hchan.
  rewrite !negb_false_iff, !Nat.eqb_eq in Hcount, Hchan.
  done.
Qed.

(** X22: a successful setup has checked that the model has one or two inputs
    of rank 4, that the first input has 1 or 3 channels and that there is a
    single output; it keeps the network input size of the constructor, adds
    one input name per input and the name of the output. *)
Theorem prepareInputsOutputs_validates (m m' : SuperResolution.t)
    (model : OvModel) (shapes : gmap string (list nat)) :
  prepareInputsOutputs build get_layout m model = Returns (m', shapes) →
  (length (inputs model) = 1%nat ∨ length (inputs model) = 2%nat)
  ∧ Forall (λ input, length (port_shape input) = 4%nat) (inputs model)
  ∧ (∃ c, channels_idx (getInputLayout (inputs model !!! 0%nat)) = Returns c
          ∧ (port_shape (inputs model !!! 0%nat) !!! c = 1%nat
             ∨ port_shape (inputs model !!! 0%nat) !!! c = 3%nat))
  ∧ length (outputs model) = 1%nat
  ∧ outputNames m' = outputNames m ++ [get_any_name (outputs model !!! 0%nat)]
  ∧ length (inputNames m') = (length (inputNames m) + length (inputs model))%nat
  ∧ netInputWidth m' = netInputWidth m
  ∧ netInputHeight m' = netInputHeight m.
Proof.
  intros Hret.
  apply prepareInputsOutputs_SR_inv in Hret
    as (c & h & w & names' & shape' & Hcount & Hrank & Hc & Hh & Hw & Hchan
        & Hsecond & Hout & ->).
  cbn [outputNames inputNames netInputWidth netInputHeight].
  split; [done|].
  destruct Hcount as [Hcount|Hcount]; rewrite Hcount in Hsecond |- *;
    cbn [Nat.eqb] in Hsecond.
  - injection Hsecond as <- <-.
    destruct (inputs model) as [|p0 [|? ?]] eqn:Hin; try done.
    repeat split; try done; [by repeat constructor|by exists c|].
    rewrite length_app. cbn. lia.
  - apply secondInput_inv in Hsecond as [Hrank2 Hcases].
    destruct (inputs model) as [|p0 [|p1 [|? ?]]] eqn:Hin; try done.
    repeat split; try done; [by repeat constructor|by exists c|].
    destruct Hcases as [(_ & _ & -> & _)|(_ & _ & _ & -> & _)];
      unfold swap_at; rewrite ?length_insert, !length_app; cbn; lia.
Qed.

(** X23: on a fresh model object with two inputs, the input names end up in
    the order (smaller, larger): the first name is that of the input that is
    not larger than the other in width and height, whichever the model
    declares first; two inputs of the same size are exchanged. *)
Theorem prepareInputsOutputs_orders_inputs (m m' : SuperResolution.t)
    (first second : Port) (outs : list Port) (shapes : gmap string (list nat)) :
  inputNames m = [] →
  prepareInputsOutputs build get_layout m (mkOvModel [first; second] outs)
  = Returns (m', shapes) →
  ∃ h w,
    height_idx (getInputLayout first) = Returns h
    ∧ width_idx (getInputLayout first) = Returns w
    ∧ (((port_shape second !!! w <= port_shape first !!! w)%nat
        ∧ (port_shape second !!! h <= port_shape first !!! h)%nat
        ∧ inputNames m' = [get_any_name second; get_any_name first])
       ∨ (((port_shape first !!! w < port_shape second !!! w)%nat
           ∨ (port_shape first !!! h < port_shape second !!! h)%nat)
          ∧ (port_shape first !!! w <= port_shape second !!! w)%nat
          ∧ (port_shape first !!! h <= port_shape second !!! h)%nat
          ∧ inputNames m' = [get_any_name first; get_any_name second])).
Proof.
  intros Hfresh Hret.
  apply prepareInputsOutputs_SR_inv in Hret
    as (c & h & w & names' & shape' & _ & _ & _ & Hh & Hw & _ & Hsecond & _ & ->).
  cbn [inputs length Nat.eqb] in Hsecond, Hh, Hw.
  change ([first; second] !!! 0%nat) with first in Hsecond, Hh, Hw.
  exists h, w. split; [done|]. split; [done|].
  apply secondInput_inv in Hsecond as [_ Hcases].
  change ([first; second] !!! 1%nat) with second in Hcases.
  rewrite Hfresh in Hcases. cbn [app inputNames] in Hcases |- *.
  destruct Hcases as [(H1 & H2 & -> & _)|(Hn & H1 & H2 & -> & _)].
  - left. done.
  - right. split; [lia|done].
Qed.

(** X24: what setup refuses: a model with no input or more than two; a first
    input that is not of rank 4; and two inputs of which neither is at least
    as large as the other in both width and height. *)
Theorem prepareInputsOutputs_refuses (m : SuperResolution.t) (model : OvModel) :
  (length (inputs model) ≠ 1%nat → length (inputs model) ≠ 2%nat →
   prepareInputsOutputs build get_layout m model
   = Throws (logic_error
       "Super resolution model wrapper supports topologies with 1 or 2 inputs only"))
  ∧ ((length (inputs model) = 1%nat ∨ length (inputs model) = 2%nat) →
     length (port_shape (inputs model !!! 0%nat)) ≠ 4%nat →
     prepareInputsOutputs build get_layout m model
     = Throws (logic_error "Number of dimensions for an input must be 4"))
  ∧ (∀ first second c h w,
       inputs model = [first; second] →
       length (port_shape first) = 4%nat →
       length (port_shape second) = 4%nat →
       channels_idx (getInputLayout first) = Returns c →
       height_idx (getInputLayout first) = Returns h →
       width_idx (getInputLayout first) = Returns w →
       (port_shape first !!! c = 1%nat ∨ port_shape first !!! c = 3%nat) →
       ((port_shape first !!! w < port_shape second !!! w)%nat
        ∧ (port_shape second !!! h < port_shape first !!! h)%nat)
       ∨ ((port_shape second !!! w < port_shape first !!! w)%nat
          ∧ (port_shape first !!! h < port_shape second !!! h)%nat) →
       prepareInputsOutputs build get_layout m model
       = Throws (logic_error
           "Each spatial dimension of one input must surpass or be equal to a spatialdimension of another input")).
Proof.
  unfold prepareInputsOutputs, model_inputs, model_outputs. repeat split.
  - intros H1 H2. apply Nat.eqb_neq in H1, H2. by rewrite H1, H2.
  - intros Hcount Hrank. apply Nat.eqb_neq in Hrank.
    destruct Hcount as [->| ->]; cbn [Nat.eqb negb andb]; by rewrite Hrank.
  - intros first second c h w Hin Hr1 Hr2 Hc Hh Hw Hchan Hdims.
    rewrite Hin. cbn [length Nat.eqb negb andb].
    change ([first; second] !!! 0%nat) with first.
    rewrite Hr1. cbn [Nat.eqb negb]. rewrite Hc, Hh, Hw.
    cbn [mbind outcome_bind].
    assert (Hchan' : negb (port_shape first !!! c =? 1)%nat
                     && negb (port_shape first !!! c =? 3)%nat = false).
    { destruct Hchan as [-> | ->]; done. }
    rewrite Hchan'. unfold secondInput.
    change ([first; second] !!! 1%nat) with second.
    rewrite Hr2. cbn [Nat.eqb negb].
    assert (Hge : (port_shape second !!! w <=? port_shape first !!! w)%nat
                  && (port_shape second !!! h <=? port_shape first !!! h)%nat = false).
    { apply andb_false_iff. rewrite !Nat.leb_gt. lia. }
    assert (Hle : (port_shape first !!! w <=? port_shape second !!! w)%nat
                  && (port_shape first !!! h <=? port_shape second !!! h)%nat = false).
    { apply andb_false_iff. rewrite !Nat.leb_gt. lia. }
    by rewrite Hge, Hle.
Qed.

End SuperResolutionPrepare.

(** ** The further properties at sample inputs *)

Section MoreWitnesses.
Local Open Scope R_scope.
#[local] Existing Instance Anchor.data_model.

Lemma corner_anchor_generated :
  SampleSR.corner_anchor
  ∈ anchors (priorBoxes Sample.prepared (featureMapsOf Sample.prepared)).
Proof.
  rewrite priorBoxes_anchors by reflexivity.
  cbn [anchors Sample.prepared app].
  unfold AnchorSpec.generate.
  apply list_elem_of_bind. exists 0%nat. split; [|apply elem_of_seq; vm_compute; lia].
  unfold AnchorSpec.level.
  apply list_elem_of_bind. exists 0%nat. split; [|apply elem_of_seq; vm_compute; lia].
  apply list_elem_of_bind. exists 0%nat. split; [|apply elem_of_seq; vm_compute; lia].
  change ([[32; 64; 128]; [256]; [512]]%Z !!! 0%nat) with [32; 64; 128]%Z.
  change ([32; 64; 128]%Z !!! 0%nat) with 32%Z.
  cbn [AnchorSpec.cell].
  apply list_elem_of_bind. exists 32%Z. split; [|by left].
  change (AnchorSpec.sub_offsets 32) with [0; 0.25; 0.5; 0.75].
  apply list_elem_of_bind. exists 0. split; [|by left].
  apply list_elem_of_bind. exists 0. split; [|by left].
  apply list_elem_of_singleton.
  unfold SampleSR.corner_anchor, AnchorSpec.centered. cbn [INR]. f_equal; lra.
Defined.

Lemma anchor_count_witness :
  length (anchors (priorBoxes Sample.prepared (featureMapsOf Sample.prepared)))
  = 341%nat.
Proof.
  rewrite (anchor_count Sample.prepared eq_refl eq_refl). reflexivity.
Defined.

Lemma anchors_square_witness :
  ∃ s : Z,
    Anchor.right SampleSR.corner_anchor - Anchor.left SampleSR.corner_anchor = IZR s
    ∧ Anchor.bottom SampleSR.corner_anchor - Anchor.top SampleSR.corner_anchor = IZR s
    ∧ (s ∈ minSizes Sample.prepared !!! 0%nat
       ∨ ∃ k, (0 < k < length (steps Sample.prepared))%nat
              ∧ s = (minSizes Sample.prepared !!! k) !!! 0%nat).
Proof.
  exact (anchors_square Sample.prepared eq_refl eq_refl _ corner_anchor_generated).
Defined.

Lemma anchors_centered_inside_witness :
  0 <= (Anchor.left SampleSR.corner_anchor + Anchor.right SampleSR.corner_anchor) / 2
    < INR (netInputWidth Sample.prepared)
  ∧ 0 <= (Anchor.top SampleSR.corner_anchor + Anchor.bottom SampleSR.corner_anchor) / 2
      < INR (netInputHeight Sample.prepared).
Proof.
  exact (anchors_centered_inside Sample.prepared eq_refl eq_refl _
           corner_anchor_generated).
Defined.

Lemma filterScores_foreground_only_witness :
  filterScores Sample.scores 0.5 = filterScores SampleSR.other_background 0.5.
Proof.
  apply filterScores_foreground_only; [reflexivity|].
  intros k Hk. unfold candidates in Hk. cbn in Hk.
  destruct k as [|[|k]]; [reflexivity|reflexivity|lia].
Defined.

Lemma filterScores_all_witness :
  (filterScores Sample.scores 0.05).1 = [0; 1]%nat.
Proof.
  rewrite (filterScores_all Sample.scores 0.05); [reflexivity|].
  intros k Hk. unfold candidates in Hk. cbn in Hk. unfold foreground.
  destruct k as [|[|k]]; [cbn; lra|cbn; lra|lia].
Defined.

Lemma filterBoxes_wellformed_witness :
  Forall (λ box, Anchor.left box <= Anchor.right box
                 ∧ Anchor.top box <= Anchor.bottom box)
    (filterBoxes Sample.zero_deltas Sample.twins [0; 1]%nat [0.1; 0.2]).
Proof.
  apply filterBoxes_wellformed. intros i Hi.
  apply elem_of_cons in Hi as [->|Hi];
    [|apply list_elem_of_singleton in Hi as ->]; cbn; lra.
Defined.

Lemma filtered_indices_in_range_witness :
  Forall (λ i, (2 * i + 1 < length (data Sample.scores))%nat
               ∧ (get_shape Sample.zero_deltas !!! 2%nat * i + 3
                  < length (data Sample.zero_deltas))%nat
               ∧ (i < length Sample.twins)%nat)
    (filterScores Sample.scores 0.5).1.
Proof.
  apply (filtered_indices_in_range Sample.scores Sample.zero_deltas
           Sample.twins 0.5 2); reflexivity.
Defined.

Lemma prepareInputsOutputs_errors_witness :
  prepareInputsOutputs Sample.faceboxes SampleSR.no_input
  = Throws (logic_error
      "FaceBoxes model wrapper expects models that have only 1 input").
Proof.
  apply prepareInputsOutputs_errors. cbn. lia.
Defined.

Lemma prepareInputsOutputs_layout_witness :
  prepareInputsOutputs Sample.faceboxes
    (mkOvModel [mkPort "input" [1; 3; 128; 256]%nat "NCHW"] (outputs Sample.network))
  = prepareInputsOutputs Sample.faceboxes
      (mkOvModel [mkPort "input" [1; 128; 256; 3]%nat "NHWC"] (outputs Sample.network)).
Proof.
  apply (prepareInputsOutputs_layout Sample.faceboxes _ _ _ 1 3 2 3 2 1);
    reflexivity.
Defined.

Lemma prepareInputsOutputs_keeps_configuration_witness :
  ∃ m', prepareInputsOutputs Sample.faceboxes Sample.network = Returns m'
        ∧ steps m' = [32; 64; 128]%Z ∧ netInputWidth m' = 128%nat.
Proof.
  eexists. split; [reflexivity|].
  destruct (prepareInputsOutputs_keeps_configuration Sample.faceboxes _
              Sample.network eq_refl)
    as (Hsteps & _ & _ & _ & _ & _ & input & w & h & Hin & Hw & Hh & _ & Hwidth & _).
  split; [exact Hsteps|reflexivity].
Defined.

End MoreWitnesses.

Section SuperResolutionWitnesses.
Local Open Scope R_scope.
Import SuperResolutionModel.

Lemma postprocess_not_three_channels_witness :
  resultImage (postprocess Sample.text_image)
  = [map (λ v, if Rgtb v 0.5 then 255%Z else 0%Z) [0.3; 0.7]].
Proof.
  apply (postprocess_not_three_channels Sample.text_image). cbn. lia.
Defined.

Lemma postprocess_image_witness :
  Forall (λ plane, length plane = 2%nat) (resultImage (postprocess Sample.text_image)).
Proof.
  apply (postprocess_image Sample.text_image); [cbn; lia|reflexivity].
Defined.

Lemma postprocess_round_trip_witness :
  resultImage (postprocess SampleSR.byte_image)
  = [[0; 128]; [255; 7]; [8; 9]]%Z.
Proof.
  apply (postprocess_round_trip SampleSR.byte_image [0; 128; 255; 7; 8; 9]%Z).
  - reflexivity.
  - reflexivity.
  - repeat constructor; lia.
Defined.

Lemma postprocess_saturates_witness :
  saturate_cast_uchar (cvRound (2 * 255)) = 255%Z.
Proof.
  apply postprocess_saturates. lra.
Defined.

End SuperResolutionWitnesses.

Section SuperResolutionSetupWitnesses.
Import SuperResolution.

Lemma changeInputSize_one_input_witness :
  ∃ shape',
    changeInputSize SampleSR.wrapper "NCHW" [SampleSR.low] 4
    = Returns {[ "lr" := shape' ]}
    ∧ shape' !!! 2%nat = 100%nat ∧ shape' !!! 3%nat = 200%nat.
Proof.
  destruct (changeInputSize_one_input SampleSR.wrapper "NCHW" SampleSR.low 4 0 2 3)
    as (shape' & Hshapes & _ & _ & Hh & Hw & _);
    [reflexivity|reflexivity|reflexivity|cbn; lia|cbn; lia|cbn; lia|].
  exists shape'. split; [exact Hshapes|]. split; [exact Hh|exact Hw].
Defined.

Lemma changeInputSize_two_inputs_witness :
  ∃ shapes lrShape bicShape,
    changeInputSize SampleSR.wrapper "NCHW" [SampleSR.high; SampleSR.low] 4
    = Returns shapes
    ∧ shapes !! "lr" = Some lrShape ∧ lrShape !!! 3%nat = 200%nat
    ∧ shapes !! "bic" = Some bicShape ∧ bicShape !!! 3%nat = 800%nat.
Proof.
  destruct (changeInputSize_two_inputs SampleSR.wrapper "NCHW"
              SampleSR.high SampleSR.low 4 0 2 3)
    as (shapes & lr & bic & lrShape & bicShape & Hshapes & _ & Hswap & _
        & Hlr & Hbic & _ & _ & Hlw & _ & _ & _ & Hplain);
    [reflexivity|reflexivity|reflexivity|cbn; lia|cbn; lia|cbn; lia|cbn; lia
    |cbn; lia|cbn; lia|discriminate|].
  assert (Hlrbic : (lr, bic) = (SampleSR.low, SampleSR.high)).
  { apply Hswap. cbn. lia. }
  injection Hlrbic as -> ->.
  exists shapes, lrShape, bicShape.
  split; [exact Hshapes|]. split; [exact Hlr|]. split; [exact Hlw|].
  split; [exact Hbic|]. apply Hplain; [lia|by vm_compute|by vm_compute].
Defined.

Lemma single_prepared :
  ∃ m' shapes,
    prepareInputsOutputs SampleSR.build getInputLayout SampleSR.wrapper SampleSR.single
    = Returns (m', shapes).
Proof. eexists _, _. reflexivity. Defined.

Lemma double_prepared :
  ∃ m' shapes,
    prepareInputsOutputs SampleSR.build getInputLayout SampleSR.wrapper SampleSR.double
    = Returns (m', shapes).
Proof. eexists _, _. reflexivity. Defined.

Lemma prepareInputsOutputs_validates_witness :
  ∃ m' shapes,
    prepareInputsOutputs SampleSR.build getInputLayout SampleSR.wrapper SampleSR.single
    = Returns (m', shapes)
    ∧ outputNames m' = ["sr"] ∧ netInputWidth m' = 200%nat.
Proof.
  destruct single_prepared as (m' & shapes & Hret).
  exists m', shapes. split; [exact Hret|].
  destruct (prepareInputsOutputs_validates SampleSR.build getInputLayout _ _ _ _ Hret)
    as (_ & _ & _ & _ & Hout & _ & Hw & _).
  split; [exact Hout|exact Hw].
Defined.

Lemma prepareInputsOutputs_orders_inputs_witness :
  ∃ m' shapes,
    prepareInputsOutputs SampleSR.build getInputLayout SampleSR.wrapper SampleSR.double
    = Returns (m', shapes)
    ∧ inputNames m' = ["lr"; "bic"].
Proof.
  destruct double_prepared as (m' & shapes & Hret).
  exists m', shapes. split; [exact Hret|].
  destruct (prepareInputsOutputs_orders_inputs SampleSR.build getInputLayout
              SampleSR.wrapper m' SampleSR.high SampleSR.low
              [SampleSR.upscaled] shapes eq_refl Hret)
    as (h & w & Hh & Hw & [(_ & _ & Hnames)|([Hlt|Hlt] & _)]).
  - exact Hnames.
  - exfalso. injection Hw as <-. cbn in Hlt. lia.
  - exfalso. injection Hh as <-. cbn in Hlt. lia.
Defined.

Lemma prepareInputsOutputs_refuses_witness :
  prepareInputsOutputs SampleSR.build getInputLayout SampleSR.wrapper SampleSR.mismatched
  = Throws (logic_error
      "Each spatial dimension of one input must surpass or be equal to a spatialdimension of another input").
Proof.
  pose proof (prepareInputsOutputs_refuses SampleSR.build getInputLayout
                SampleSR.wrapper SampleSR.mismatched) as (_ & _ & Hdims).
  apply (Hdims SampleSR.low SampleSR.crossed 1%nat 2%nat 3%nat);
    try reflexivity.
  - by right.
  - left. cbn. lia.
Defined.

End SuperResolutionSetupWitnesses.

(** ** A detection that reaches the clamps *)

Section DetectionSample.
Local Open Scope R_scope.
#[local] Existing Instance Anchor.data_model.

Lemma Rgtb_false (a b : R) : ¬ a > b → Rgtb a b = false.
Proof. intros H. unfold Rgtb. by destruct (Rgt_dec a b). Qed.

Lemma clamp_below (value low high : R) : value < low → clamp value low high = low.
Proof.
  intros H. unfold clamp, Rltb. destruct (Rlt_dec value low); [done|lra].
Qed.

(** With accessors that follow the data model, zero deltas decode to the
    anchor. *)
Lemma decodeBox_zero_deltas {accessors : Anchor.Accessors}
    (boxesPtr : list R) (shape : list nat) (anchors : list Anchor.t)
    (variance : list R) (i : nat) :
  Anchor.conversions →
  boxesPtr !!! (shape !!! 2%nat * i)%nat = 0 →
  boxesPtr !!! (shape !!! 2%nat * i + 1)%nat = 0 →
  boxesPtr !!! (shape !!! 2%nat * i + 2)%nat = 0 →
  boxesPtr !!! (shape !!! 2%nat * i + 3)%nat = 0 →
  decodeBox boxesPtr shape anchors variance i = anchors !!! i.
Proof.
  intros Hconv Hx Hy Hw Hh. unfold decodeBox.
  rewrite Hx, Hy, Hw, Hh, !Rmult_0_l, exp_0.
  destruct (Hconv (anchors !!! i)) as (Gw & Gh & Gx & Gy).
  destruct (anchors !!! i) as [l t r b].
  cbn [Anchor.left Anchor.right Anchor.top Anchor.bottom] in *.
  f_equal; lra.
Qed.

Lemma sample_scores :
  filterScores SampleDetection.scores 0.5 = ([0%nat], [0.9]).
Proof.
  rewrite filterScores_pair. cbv zeta.
  change (candidates SampleDetection.scores) with 2%nat.
  cbn [seq List.filter].
  change (foreground SampleDetection.scores 0) with 0.9.
  change (foreground SampleDetection.scores 1) with 0.2.
  rewrite (proj2 (Rgtb_true 0.9 0.5)) by lra.
  rewrite (Rgtb_false 0.2 0.5) by lra.
  cbn [map]. reflexivity.
Defined.

Lemma sample_boxes :
  filterBoxes Sample.zero_deltas (anchors SampleDetection.detector) [0%nat]
    (variance SampleDetection.detector)
  = [Anchor.mk (-20) 0 150 10].
Proof.
  rewrite filterBoxes_map. cbn [map]. f_equal.
  rewrite decodeBox_zero_deltas; try reflexivity.
  exact data_model_conversions.
Defined.

Lemma sample_keep : Nms.nms [Anchor.mk (-20) 0 150 10] [0.9] 0.3 = [0%nat].
Proof.
  unfold Nms.nms. cbn [length seq sort foldr insert_sorted].
  simp greedy. rewrite ?filter_nil. by simp greedy.
Defined.

Lemma sample_face :
  describe SampleDetection.detector [Anchor.mk (-20) 0 150 10] [0.9] 100 100
    (INR 100 / IZR 100) (INR 100 / IZR 100) 0
  = SampleDetection.face.
Proof.
  unfold describe, SampleDetection.face.
  change ([Anchor.mk (-20) 0 150 10] !!! 0%nat) with (Anchor.mk (-20) 0 150 10).
  change ([0.9] !!! 0%nat) with 0.9.
  cbn [Anchor.getWidth Anchor.getHeight Anchor.data_model Anchor.left
       Anchor.right Anchor.top Anchor.bottom labels SampleDetection.detector].
  replace (INR 100) with 100 by (rewrite INR_IZR_INZ; done).
  rewrite (clamp_below (-20 / (100 / 100))) by lra.
  rewrite (clamp_inside (0 / (100 / 100))) by lra.
  rewrite (clamp_above ((150 - -20) / (100 / 100))) by lra.
  rewrite (clamp_inside ((10 - 0) / (100 / 100))) by lra.
  f_equal; lra.
Defined.

Lemma sample_detections :
  detections SampleDetection.detector SampleDetection.scores Sample.zero_deltas
    100 100
  = mkDetectionResult [SampleDetection.face].
Proof.
  unfold detections.
  change (confidence_threshold SampleDetection.detector) with 0.5.
  change (iou_threshold SampleDetection.detector) with 0.3.
  rewrite sample_scores. cbn [fst snd].
  rewrite sample_boxes, sample_keep. cbn [map].
  change (netInputWidth SampleDetection.detector) with 100%nat.
  change (netInputHeight SampleDetection.detector) with 100%nat.
  by rewrite sample_face.
Defined.

Lemma sample_returns :
  postprocess SampleDetection.detector SampleDetection.result
  = Returns (detections SampleDetection.detector SampleDetection.scores
               Sample.zero_deltas 100 100).
Proof.
  apply (postprocess_returns SampleDetection.detector SampleDetection.result
           SampleDetection.scores Sample.zero_deltas); reflexivity.
Defined.

Lemma detection_assembly_witness :
  ∃ result d,
    postprocess SampleDetection.detector SampleDetection.result = Returns result
    ∧ objects result = [d]
    ∧ x d = 0 ∧ width d = 100
    ∧ 0 <= y d <= 100 ∧ 0 <= height d <= 100.
Proof.
  exists (detections SampleDetection.detector SampleDetection.scores
            Sample.zero_deltas 100 100),
    SampleDetection.face.
  destruct detection_assembly as (Hobjects & _ & Hrange & _).
  destruct (Hobjects _ _ _ sample_returns) as (st & bt & Hs & Hb & Heq).
  assert (Hst : st = SampleDetection.scores).
  { assert (Hl : outputsData SampleDetection.result
                 !! (outputNames SampleDetection.detector !!! 1%nat)
                 = Some SampleDetection.scores) by reflexivity.
    rewrite Hl in Hs. by injection Hs. }
  assert (Hbt : bt = Sample.zero_deltas).
  { assert (Hl : outputsData SampleDetection.result
                 !! (outputNames SampleDetection.detector !!! 0%nat)
                 = Some Sample.zero_deltas) by reflexivity.
    rewrite Hl in Hb. by injection Hb. }
  subst st bt. cbv zeta in Heq.
  change (confidence_threshold SampleDetection.detector) with 0.5 in Heq.
  change (iou_threshold SampleDetection.detector) with 0.3 in Heq.
  rewrite sample_scores in Heq. cbn [fst snd] in Heq.
  rewrite sample_boxes, sample_keep in Heq. cbn [map] in Heq.
  change (netInputWidth SampleDetection.detector) with 100%nat in Heq.
  change (netInputHeight SampleDetection.detector) with 100%nat in Heq.
  change (inputImgWidth SampleDetection.result) with 100%Z in Heq.
  change (inputImgHeight SampleDetection.result) with 100%Z in Heq.
  split; [exact sample_returns|]. split; [by rewrite Heq, sample_face|].
  split; [reflexivity|]. split; [reflexivity|].
  pose proof (Hrange SampleDetection.detector [Anchor.mk (-20) 0 150 10] [0.9]
                100%Z 100%Z (INR 100 / IZR 100) (INR 100 / IZR 100) 0%nat
                ltac:(lia) ltac:(lia)) as Hr.
  cbv zeta in Hr. rewrite sample_face in Hr.
  destruct Hr as (_ & _ & Hy & Hh). split; [exact Hy|exact Hh].
Defined.

Lemma detections_labelled_witness :
  ∃ d,
    objects (detections SampleDetection.detector SampleDetection.scores
               Sample.zero_deltas 100 100) = [d]
    ∧ labelID d = 0%Z ∧ label d = "Face".
Proof.
  exists SampleDetection.face. split; [by rewrite sample_detections|].
  pose proof (detections_labelled SampleDetection.detector
                SampleDetection.result _ sample_returns) as Hall.
  rewrite sample_detections in Hall. cbn [objects] in Hall.
  apply Forall_cons_1 in Hall as [Hd _]. exact Hd.
Defined.

Lemma detections_confident_witness :
  ∃ d,
    objects (detections SampleDetection.detector SampleDetection.scores
               Sample.zero_deltas 100 100) = [d]
    ∧ confidence d > 0.5
    ∧ (length [d] <= length (filterScores SampleDetection.scores 0.5).1)%nat.
Proof.
  exists SampleDetection.face. split; [by rewrite sample_detections|].
  pose proof (detections_confident SampleDetection.detector
                SampleDetection.result SampleDetection.scores _ eq_refl
                sample_returns) as [Hall Hlen].
  rewrite sample_detections in Hall, Hlen. cbn [objects] in Hall, Hlen.
  apply Forall_cons_1 in Hall as [Hd _]. split; [exact Hd|exact Hlen].
Defined.

End DetectionSample.
